(** * Traced tasks: backtrace capture, failure reporter and the task state machine

    A shallow embedding of [src/cpp/traced_task/main.cpp] (the [TracedTask]
    variant) and of its older sibling (the [Task] variant with
    [CaptureStackTrace] / [FormatStackTrace]).

    - C strings ([const char *]) are [option string], [None] being [nullptr].
    - [void *] and [uintptr_t] are 64-bit values, kept in [N]; pointer
      subtraction wraps modulo [2^64].
    - The platform services the code calls ([backtrace], [backtrace_symbols],
      [dladdr], [abi::__cxa_demangle], the stream inserter of pointers) are
      inputs of the model. *)

From Stdlib Require Import String Ascii List Bool Arith ZArith NArith Lia.
From Stdlib Require Import DecimalString.
Import ListNotations.

Local Open Scope list_scope.
Local Open Scope string_scope.

(** ** namespace util *)

Module util.

(** [ptr ? std::string{ptr} : std::string{}] *)
Definition ptr_to_string (ptr : option string) : string :=
  match ptr with
  | Some s => s
  | None => ""
  end.

End util.

(** ** Text streams *)

(** [std::string::empty()] *)
Definition empty (s : string) : bool :=
  match s with
  | EmptyString => true
  | String _ _ => false
  end.

(** The character ['\n']. *)
Definition newline : string := String (ascii_of_nat 10) EmptyString.

(** [operator<<] of an unsigned integer on a stream with default flags. *)
Definition dec (n : N) : string := NilZero.string_of_uint (N.to_uint n).

(** The texts of [l], one after the other. *)
Definition join (l : list string) : string := fold_right append "" l.

(** ** The platform boundary *)

(** [Dl_info] as filled by [dladdr]. *)
Record Dl_info : Type := mkDl_info {
  dli_fname : option string;
  dli_fbase : option N;
  dli_sname : option string;
  dli_saddr : option N
}.

(** What [abi::__cxa_demangle(name, nullptr, nullptr, &status)] hands back:
    the returned buffer and the value written to [status]. *)
Record demangle_result : Type := mkDemangle {
  demangled : option string;
  status : Z
}.

(** One state of the execution environment, as seen by a capture. *)
Record Provider : Type := mkProvider {
  (** return addresses of the active frames, innermost first *)
  call_stack : list N;
  (** [backtrace_symbols] could allocate its table *)
  symbols_ok : bool;
  (** the textual description [backtrace_symbols] gives an address *)
  symbol_text : N -> option string;
  dladdr : N -> option Dl_info;
  cxa_demangle : string -> demangle_result
}.

(** [backtrace(buffer, size)]: at most [size] addresses are stored. *)
Definition backtrace (P : Provider) (size : nat) : list N :=
  firstn size (call_stack P).

(** [backtrace_symbols(buffer, nframes)]: [None] is the null table. *)
Definition backtrace_symbols (P : Provider) (buffer : list N)
  : option (list (option string)) :=
  if symbols_ok P then Some (map (symbol_text P) buffer) else None.

(** The ABI contract of the demangler: [status] is [0] exactly when a
    demangled name is returned. *)
Definition demangler_contract (P : Provider) : Prop :=
  forall name, status (cxa_demangle P name) = 0%Z <->
               demangled (cxa_demangle P name) <> None.

Definition uintptr_max : Z := 2 ^ 64.

(** The difference of two byte pointers, cast to [uintptr_t]. *)
Definition ptr_diff (a b : N) : N :=
  Z.to_N ((Z.of_N a - Z.of_N b) mod uintptr_max).

(** ** namespace my_backtrace (main.cpp) *)

Module my_backtrace.

Record SymbolicInfo : Type := mkSymbolicInfo {
  symbol : string;
  fileName : string;
  offset : N
}.

Record StackFrame : Type := mkStackFrame {
  address : N;
  symbolicInfo : SymbolicInfo
}.

Definition StackTrace : Type := list StackFrame.

(** Value-initialised [SymbolicInfo] (the [return {}]). *)
Definition SymbolicInfo_default : SymbolicInfo := mkSymbolicInfo "" "" 0.

Definition intoSymbolicInfo (P : Provider) (address : N)
    (symbol_backtrace : option string) : SymbolicInfo :=
  match dladdr P address with
  | None => SymbolicInfo_default
  | Some dl_info =>
      let symbol :=
        match dli_sname dl_info with
        | None => util.ptr_to_string symbol_backtrace
        | Some sname =>
            let r := cxa_demangle P sname in
            if negb (status r =? 0)%Z
            then util.ptr_to_string (demangled r)
            else util.ptr_to_string symbol_backtrace
        end in
      let fileName := util.ptr_to_string (dli_fname dl_info) in
      let offset :=
        match dli_fbase dl_info with
        | Some fbase => ptr_diff address fbase
        | None => 0%N
        end in
      mkSymbolicInfo symbol fileName offset
  end.

(** One turn of the loop of [current]: frame [i] is resolved and pushed. *)
Definition current_step (P : Provider) (callstack : list N)
    (callstack_symbols : list (option string))
    (stackTrace : StackTrace) (i : nat) : StackTrace :=
  let address := nth i callstack 0%N in
  let symbolicInfo := intoSymbolicInfo P address (nth i callstack_symbols None) in
  let frame := mkStackFrame address symbolicInfo in
  (stackTrace ++ [frame])%list.

(** [current<DEPTH_MAX>()] *)
Definition current (DEPTH_MAX : nat) (P : Provider) : StackTrace :=
  let stackTrace : StackTrace := [] in
  let callstack := backtrace P DEPTH_MAX in
  let nframes := Z.of_nat (length callstack) in
  if (nframes <=? 0)%Z then stackTrace
  else
    match backtrace_symbols P callstack with
    | None => stackTrace
    | Some callstack_symbols =>
        (* for (int i = 2; i < nframes; ++i) *)
        fold_left (current_step P callstack callstack_symbols)
                  (seq 2 (Z.to_nat nframes - 2)) stackTrace
    end.

(** The frame the loop builds for an address of the call stack. *)
Definition resolve_frame (P : Provider) (a : N) : StackFrame :=
  mkStackFrame a (intoSymbolicInfo P a (symbol_text P a)).

(** The default template argument. *)
Definition DEPTH_MAX_default : nat := 128.

Section Formatting.

(** The stream inserter of [const void] pointers: the rendering of a pointer
    is left to the implementation. *)
Variable show_pointer : N -> string.

(** The body of the loop of [toString], on the stream contents [ss]. *)
Definition toString_step (ss : string) (i : N) (frame : StackFrame) : string :=
  let ss := ss ++ "#" ++ dec i ++ ": " ++ show_pointer (address frame) ++ " " in
  let ss :=
    if negb (empty (symbol (symbolicInfo frame)))
    then ss ++ symbol (symbolicInfo frame)
    else ss ++ "???" in
  let ss :=
    if (0 <? offset (symbolicInfo frame))%N
    then ss ++ " +" ++ dec (offset (symbolicInfo frame))
    else ss in
  let ss :=
    if negb (empty (fileName (symbolicInfo frame)))
    then ss ++ " in " ++ fileName (symbolicInfo frame)
    else ss in
  ss ++ newline.

Fixpoint toString_loop (ss : string) (i : N) (frames : list StackFrame) : string :=
  match frames with
  | [] => ss
  | frame :: rest => toString_loop (toString_step ss i frame) (i + 1)%N rest
  end.

Definition toString (stackTrace : StackTrace) : string :=
  toString_loop "" 0%N stackTrace.

(** *** The rendering, as the specification words it *)

Definition symbol_field (f : StackFrame) : string :=
  if empty (symbol (symbolicInfo f)) then "???" else symbol (symbolicInfo f).

Definition offset_field (f : StackFrame) : string :=
  if (0 <? offset (symbolicInfo f))%N
  then " +" ++ dec (offset (symbolicInfo f)) else "".

Definition module_field (f : StackFrame) : string :=
  if empty (fileName (symbolicInfo f)) then ""
  else " in " ++ fileName (symbolicInfo f).

Definition frame_line (i : N) (f : StackFrame) : string :=
  "#" ++ dec i ++ ": " ++ show_pointer (address f) ++ " " ++
  symbol_field f ++ offset_field f ++ module_field f ++ newline.

Fixpoint frame_lines (i : N) (frames : list StackFrame) : list string :=
  match frames with
  | [] => []
  | f :: rest => frame_line i f :: frame_lines (i + 1)%N rest
  end.

End Formatting.

End my_backtrace.

(** ** The older variant of the capture and formatting routines
    (the [Task] file: [CaptureStackTrace], [FormatStackTrace]) *)

Module part_002.

Record StackFrame : Type := mkStackFrame {
  address : N;
  symbol : string;
  fileName : string;
  offset : N;
  lineNumber : Z
}.

(** The symbol chosen for one frame inside the loop of [CaptureStackTrace].
    [symbols_i] is [symbols[i]].  The two branches that use it assign it to
    the [std::string] as it is, with no test: [None] is that assignment from
    a null pointer, whose behaviour is undefined. *)
Definition frame_symbol (P : Provider) (address : N)
    (symbols_i : option string) : option string :=
  match dladdr P address with
  | Some info =>
      match dli_sname info with
      | Some sname =>
          match demangled (cxa_demangle P sname) with
          | Some d => Some d
          | None => Some sname
          end
      | None => symbols_i
      end
  | None => symbols_i
  end.

Definition frame_fileName (P : Provider) (address : N) : string :=
  match dladdr P address with
  | Some info =>
      match dli_fname info with
      | Some fname => fname
      | None => ""
      end
  | None => ""
  end.

Definition frame_offset (P : Provider) (address : N) : N :=
  match dladdr P address with
  | Some info =>
      match dli_fbase info with
      | Some fbase => ptr_diff address fbase
      | None => 0%N
      end
  | None => 0%N
  end.

(** One turn of the loop; [None] once the behaviour is undefined. *)
Definition capture_step (P : Provider) (callstack : list N)
    (symbols : list (option string))
    (stackTrace : option (list StackFrame)) (i : nat)
  : option (list StackFrame) :=
  match stackTrace with
  | Some frames_so_far =>
      let a := nth i callstack 0%N in
      match frame_symbol P a (nth i symbols None) with
      | Some s =>
          let frame :=
            mkStackFrame a s (frame_fileName P a) (frame_offset P a) 0%Z in
          Some (frames_so_far ++ [frame])%list
      | None => None
      end
  | None => None
  end.

Definition kMaxStackDepth : nat := 128.

(** [CaptureStackTrace()]; [None] when a null entry of the symbol table is
    assigned to a string on the way. *)
Definition CaptureStackTrace (P : Provider) : option (list StackFrame) :=
  let callstack := backtrace P kMaxStackDepth in
  let frames := Z.of_nat (length callstack) in
  if (frames <=? 0)%Z then Some []
  else
    match backtrace_symbols P callstack with
    | None => Some []
    | Some symbols =>
        fold_left (capture_step P callstack symbols)
                  (seq 2 (Z.to_nat frames - 2)) (Some [])
    end.

(** The frame the loop of [CaptureStackTrace] builds for an address of the
    call stack, when it can. *)
Definition resolve_frame (P : Provider) (a : N) : option StackFrame :=
  match frame_symbol P a (symbol_text P a) with
  | Some s => Some (mkStackFrame a s (frame_fileName P a) (frame_offset P a) 0%Z)
  | None => None
  end.

(** All the results of [f] on [l], or nothing when one of them is missing. *)
Fixpoint collect {A B : Type} (f : A -> option B) (l : list A) : option (list B) :=
  match l with
  | [] => Some []
  | a :: rest =>
      match f a, collect f rest with
      | Some b, Some bs => Some (b :: bs)
      | _, _ => None
      end
  end.

(** The symbol table has a text for every address. *)
Definition table_complete (P : Provider) : Prop :=
  forall a, symbol_text P a <> None.

Section Formatting.

Variable show_pointer : N -> string.

Definition FormatStackTrace_step (ss : string) (i : N) (frame : StackFrame)
  : string :=
  let ss := ss ++ "#" ++ dec i ++ ": " ++ show_pointer (address frame) ++ " " in
  let ss := if negb (empty (symbol frame)) then ss ++ symbol frame
            else ss ++ "???" in
  let ss := if (0 <? offset frame)%N then ss ++ " +" ++ dec (offset frame)
            else ss in
  let ss := if negb (empty (fileName frame)) then ss ++ " in " ++ fileName frame
            else ss in
  ss ++ newline.

Fixpoint FormatStackTrace_loop (ss : string) (i : N) (frames : list StackFrame)
  : string :=
  match frames with
  | [] => ss
  | frame :: rest =>
      FormatStackTrace_loop (FormatStackTrace_step ss i frame) (i + 1)%N rest
  end.

Definition FormatStackTrace (stackTrace : list StackFrame) : string :=
  FormatStackTrace_loop "" 0%N stackTrace.

(** The same frame, in the layout of the newer variant. *)
Definition to_frame (f : StackFrame) : my_backtrace.StackFrame :=
  my_backtrace.mkStackFrame (address f)
    (my_backtrace.mkSymbolicInfo (symbol f) (fileName f) (offset f)).

End Formatting.

End part_002.

(** ** Failures *)

(** A thrown object: either one derived from [std::exception], seen through
    [typeid(e).name()] and [e.what()], or anything else. *)
Inductive exn : Type :=
| std_exception (type_name : string) (what : string)
| other_exception (tag : nat).

(** [std::exception_ptr]; [None] is the null pointer. *)
Definition exception_ptr : Type := option exn.

(** [std::runtime_error(what)], under its Itanium-ABI type name. *)
Definition runtime_error (what : string) : exn :=
  std_exception "St13runtime_error" what.

(** Does [catch (const std::exception &)] take the object? *)
Definition is_std_exception (e : exn) : bool :=
  match e with
  | std_exception _ _ => true
  | other_exception _ => false
  end.

Definition what_of (e : exn) : string :=
  match e with
  | std_exception _ w => w
  | other_exception _ => ""
  end.

(** The kind name and the message the reporter hands to the sink. *)
Definition kind_and_message (e : exn) : string * string :=
  match e with
  | std_exception n r => (n, r)
  | other_exception _ =>
      ("Unknown Exception", "Unhandled exception of unknown type")
  end.

(** How a call that may throw comes back. *)
Inductive outcome (S : Type) : Type :=
| normal (s : S)
| raised (e : exn) (s : S).

Arguments normal {S} s.
Arguments raised {S} e s.

(** ** The failure reporter *)

Section Reporter.

Variable show_pointer : N -> string.

(** The state the sink works on, and the sink: [RecordException(name, reason,
    stack_trace)] may come back normally or throw. *)
Variable S : Type.
Variable RecordException : string -> string -> string -> S -> outcome S.

Definition reportExceptionToFirebase (exceptionPtr : exception_ptr)
    (stackTrace : my_backtrace.StackTrace) (s : S) : outcome S :=
  match exceptionPtr with
  | None => normal s
  | Some (std_exception name what) =>
      let stackTraceStr := my_backtrace.toString show_pointer stackTrace in
      RecordException name what stackTraceStr s
  | Some (other_exception _) =>
      let stackTraceStr := my_backtrace.toString show_pointer stackTrace in
      RecordException "Unknown Exception" "Unhandled exception of unknown type"
                      stackTraceStr s
  end.

End Reporter.

Arguments reportExceptionToFirebase show_pointer {S} RecordException
  exceptionPtr stackTrace s.

(** ** The fake sink of the repository and the observable world *)

(** One call of [firebase::crashlytics::RecordException].  [reporter] is the
    coroutine frame whose final awaiter made the call; the sink does not see
    it, the log keeps it so that calls can be told apart by Task level. *)
Record Report : Type := mkReport {
  reporter : nat;
  name : string;
  reason : string;
  stack_trace : string
}.

Record World : Type := mkWorld {
  (** coroutine frames allocated so far; the next frame gets this number *)
  frames_created : nat;
  (** what was written to [std::cout], oldest first *)
  cout : list string;
  (** the calls the sink received, oldest first *)
  reports : list Report
}.

Definition print (s : string) (w : World) : World :=
  mkWorld (frames_created w) (cout w ++ [s])%list (reports w).

Definition allocate_frame (w : World) : World :=
  mkWorld (S (frames_created w)) (cout w) (reports w).

Module firebase.

(** [firebase::crashlytics::RecordException]: five writes to [std::cout]. *)
Definition RecordException (caller : nat) (name reason stack_trace : string)
    (w : World) : World :=
  mkWorld (frames_created w)
          (app (cout w)
               [ newline ++ "===== FIREBASE CRASHLYTICS REPORT =====" ++ newline;
                 "Exception Type: " ++ name ++ newline;
                 "Reason: " ++ reason ++ newline;
                 "Stack Trace:" ++ newline ++ stack_trace;
                 "======================================" ++ newline ])
          (app (reports w) [mkReport caller name reason stack_trace]).

End firebase.

(** What one call of the sink writes to [std::cout]. *)
Definition report_output (r : Report) : list string :=
  [ newline ++ "===== FIREBASE CRASHLYTICS REPORT =====" ++ newline;
    "Exception Type: " ++ name r ++ newline;
    "Reason: " ++ reason r ++ newline;
    "Stack Trace:" ++ newline ++ stack_trace r;
    "======================================" ++ newline ].

(** ** The task *)

Section Task.

(** The result type of the tasks, the pointer rendering, and the execution
    environment the capture of each coroutine frame meets: [provider_at n] is
    what [my_backtrace::current] sees when frame number [n] starts. *)
Variable T : Type.
Variable show_pointer : N -> string.
Variable provider_at : nat -> Provider.

(** *** Coroutine bodies

    A body is a tree of the steps a coroutine of the repository takes.  [Pure]
    ends a block normally; a whole body has type [Prog Empty_set] and so ends
    in [co_return] or in a throw, never by flowing off its end. *)
Inductive Prog (A : Type) : Type :=
| Pure (a : A)
| CoReturn (v : T)
| Throw (e : exn)
| Print (s : string) (k : Prog A)
  (** [co_await std::suspend_always{}] *)
| Suspend (k : Prog A)
  (** [x = co_await f()], [f] a coroutine returning a [TracedTask] *)
| AwaitCall (callee : Prog Empty_set) (k : T -> Prog A)
  (** [try { block } catch (...) { handler }], the clauses taking the
      objects [catches] accepts *)
| TryCatch (block : Prog unit) (catches : exn -> bool)
           (handler : exn -> Prog unit) (k : Prog A).

Arguments Pure {A} a.
Arguments CoReturn {A} v.
Arguments Throw {A} e.
Arguments Print {A} s k.
Arguments Suspend {A} k.
Arguments AwaitCall {A} callee k.
Arguments TryCatch {A} block catches handler k.

Definition Body : Type := Prog Empty_set.

(** Where a run of a piece of body stops. *)
Inductive Res (A : Type) : Type :=
| Done (a : A) (w : World)
| Returned (v : T) (w : World)
| Threw (e : exn) (w : World)
| Paused (resume : World -> Res A) (w : World)
| Undefined (w : World).

Arguments Done {A} a w.
Arguments Returned {A} v w.
Arguments Threw {A} e w.
Arguments Paused {A} resume w.
Arguments Undefined {A} w.

(** *** promise_type *)

Inductive variant : Type :=
| holds_exception_ptr (e : exception_ptr)
| holds_Success (value : T).

Record promise_type : Type := mkPromise {
  result_slot : variant;
  stackTrace : my_backtrace.StackTrace
}.

(** A default-constructed promise: the variant holds its first alternative,
    a null [exception_ptr], and the trace is empty. *)
Definition promise_default : promise_type :=
  mkPromise (holds_exception_ptr None) [].

Inductive coroutine_state : Type :=
| suspended_at (resume : World -> Res Empty_set)
| at_final_suspend.

(** The coroutine frame a [handle_type] points to. *)
Record coroutine_frame : Type := mkFrame {
  frame_id : nat;
  promise : promise_type;
  state : coroutine_state
}.

(** [handle.done()] *)
Definition done (f : coroutine_frame) : bool :=
  match state f with
  | at_final_suspend => true
  | suspended_at _ => false
  end.

(** A [TracedTask] owns at most one frame; [None] is the null handle. *)
Record TracedTask : Type := mkTask {
  handle : option coroutine_frame
}.

Definition initial_suspend (id : nat) (p : promise_type) : promise_type :=
  mkPromise (result_slot p)
            (my_backtrace.current my_backtrace.DEPTH_MAX_default (provider_at id)).

Definition return_value (p : promise_type) (value : T) : promise_type :=
  mkPromise (holds_Success value) (stackTrace p).

Definition unhandled_exception (p : promise_type) (current_exception : exn)
  : promise_type :=
  mkPromise (holds_exception_ptr (Some current_exception)) (stackTrace p).

(** [std::get_if<std::exception_ptr>(&p.result)] *)
Definition get_if_exception_ptr (v : variant) : option exception_ptr :=
  match v with
  | holds_exception_ptr e => Some e
  | holds_Success _ => None
  end.

(** The repository's sink never throws. *)
Definition sink (caller : nat) (name reason stack_trace : string) (w : World)
  : outcome World :=
  normal (firebase.RecordException caller name reason stack_trace w).

(** [final_awaiter::await_suspend(h)].  It is [noexcept]: a throw out of the
    report would end the process, which the sink above never causes. *)
Definition final_suspend (h : nat) (p : promise_type) (w : World) : World :=
  match get_if_exception_ptr (result_slot p) with
  | Some e =>
      match reportExceptionToFirebase show_pointer (sink h) e (stackTrace p) w with
      | normal w' => w'
      | raised _ w' => w'
      end
  | None => w
  end.

(** What the coroutine machinery does once the body gives control back:
    [return_value] or [unhandled_exception] followed by [final_suspend], or
    the frame stays suspended with its continuation. *)
Definition settle (id : nat) (p : promise_type) (r : Res Empty_set)
  : coroutine_frame * World :=
  match r with
  | Done a _ => match a with end
  | Returned v w =>
      let p := return_value p v in
      (mkFrame id p at_final_suspend, final_suspend id p w)
  | Threw e w =>
      let p := unhandled_exception p e in
      (mkFrame id p at_final_suspend, final_suspend id p w)
  | Paused k w => (mkFrame id p (suspended_at k), w)
  | Undefined w => (mkFrame id p (suspended_at (fun w' => Undefined w')), w)
  end.

(** Calling a coroutine function: the frame is allocated, the promise built,
    [get_return_object] makes the task, [initial_suspend] captures the trace
    and does not suspend, and the body starts at once. *)
Definition coroutine_call (body : World -> Res Empty_set) (w : World)
  : TracedTask * World :=
  let id := frames_created w in
  let w := allocate_frame w in
  let p := initial_suspend id promise_default in
  let '(f, w) := settle id p (body w) in
  (mkTask (Some f), w).

(** [handle.resume()] on a frame suspended with continuation [k]. *)
Definition handle_resume (f : coroutine_frame) (k : World -> Res Empty_set)
    (w : World) : coroutine_frame * World :=
  settle (frame_id f) (promise f) (k w).

(** *** The public operations of TracedTask *)

(** How a call returning a [T] comes back; [undefined] is
    [std::rethrow_exception] of a null pointer. *)
Inductive call_result : Type :=
| returns (v : T)
| throws (e : exn)
| undefined.

Definition is_ready (t : TracedTask) : bool :=
  match handle t with
  | Some h => done h
  | None => false
  end.

Definition not_completed : exn := runtime_error "TracedTask not completed".

Definition rethrow_exception (e : exception_ptr) : call_result :=
  match e with
  | Some x => throws x
  | None => undefined
  end.

Definition result (t : TracedTask) : call_result :=
  if negb (is_ready t) then throws not_completed
  else
    match handle t with
    | Some h =>
        match result_slot (promise h) with
        | holds_Success value => returns value
        | holds_exception_ptr e => rethrow_exception e
        end
    | None => throws not_completed
    end.

Definition run (t : TracedTask) (w : World) : TracedTask * World :=
  match handle t with
  | Some h =>
      match state h with
      | suspended_at k =>
          let '(h', w') := handle_resume h k w in (mkTask (Some h'), w')
      | at_final_suspend => (t, w)
      end
  | None => (t, w)
  end.

(** Move construction: the new task takes the handle, [other] is left null. *)
Definition move_construct (other : TracedTask) : TracedTask * TracedTask :=
  (mkTask (handle other), mkTask None).

(** Move assignment between two distinct objects: the frame [this] owned is
    destroyed, [this] takes the handle of [other], [other] is left null. *)
Definition move_assign (this other : TracedTask) : TracedTask * TracedTask :=
  (mkTask (handle other), mkTask None).

(** *** Awaiting a task *)

Definition await_ready (t : TracedTask) : bool := is_ready t.

(** [handle.resume(); return continuation;].  [None]: the handle is null or
    the coroutine is at its final suspend point, where resuming is undefined. *)
Definition await_suspend (t : TracedTask) (w : World)
  : option (TracedTask * World) :=
  match handle t with
  | Some h =>
      match state h with
      | suspended_at k =>
          let '(h', w') := handle_resume h k w in Some (mkTask (Some h'), w')
      | at_final_suspend => None
      end
  | None => None
  end.

Definition await_resume (t : TracedTask) : call_result := result t.

(** [co_await t]: the awaiting body goes on at once, with what [await_resume]
    gives, in the world the await left. *)
Definition co_await (t : TracedTask) (w : World) : option (call_result * World) :=
  if await_ready t then Some (await_resume t, w)
  else
    match await_suspend t w with
    | Some (t', w') => Some (await_resume t', w')
    | None => None
    end.

(** *** Running a body *)

Fixpoint catch_res (r : Res unit) (catches : exn -> bool)
    (handler : exn -> World -> Res unit) : Res unit :=
  match r with
  | Threw e w => if catches e then handler e w else Threw e w
  | Paused resume w =>
      Paused (fun w' => catch_res (resume w') catches handler) w
  | Done a w => Done a w
  | Returned v w => Returned v w
  | Undefined w => Undefined w
  end.

Fixpoint bind_res {A : Type} (r : Res unit) (k : World -> Res A) : Res A :=
  match r with
  | Done _ w => k w
  | Returned v w => Returned v w
  | Threw e w => Threw e w
  | Paused resume w => Paused (fun w' => bind_res (resume w') k) w
  | Undefined w => Undefined w
  end.

Fixpoint exec {A : Type} (p : Prog A) (w : World) : Res A :=
  match p with
  | Pure a => Done a w
  | CoReturn v => Returned v w
  | Throw e => Threw e w
  | Print s k => exec k (print s w)
  | Suspend k => Paused (exec k) w
  | AwaitCall callee k =>
      let '(task, w1) := coroutine_call (exec callee) w in
      match co_await task w1 with
      | Some (returns v, w2) => exec (k v) w2
      | Some (throws e, w2) => Threw e w2
      | Some (undefined, w2) => Undefined w2
      | None => Undefined w1
      end
  | TryCatch block catches handler k =>
      bind_res (catch_res (exec block w) catches (fun e => exec (handler e)))
               (exec k)
  end.

(** Creating a task from a body. *)
Definition create (body : Body) (w : World) : TracedTask * World :=
  coroutine_call (exec body) w.

(** *** Drivers

    What an owner can do with a task between its creation and its
    destruction. *)
Inductive driver_op : Type :=
| do_run
| do_is_ready
| do_result
| do_move.

Definition step_op (op : driver_op) (s : TracedTask * World)
  : TracedTask * World :=
  match op with
  | do_run => run (fst s) (snd s)
  | do_is_ready => let _ := is_ready (fst s) in s
  | do_result => let _ := result (fst s) in s
  | do_move => (fst (move_construct (fst s)), snd s)
  end.

Definition lifetime (ops : list driver_op) (s : TracedTask * World)
  : TracedTask * World :=
  fold_left (fun s op => step_op op s) ops s.

(** *** Vocabulary of the properties *)

(** A run of [std::cout << s << std::endl] statements in front of [k]. *)
Fixpoint prints {A : Type} (l : list string) (k : Prog A) : Prog A :=
  match l with
  | [] => k
  | s :: l' => Print s (prints l' k)
  end.

(** The trace frame number [id] captured when it started. *)
Definition trace_of (id : nat) : my_backtrace.StackTrace :=
  my_backtrace.current my_backtrace.DEPTH_MAX_default (provider_at id).

(** The call the sink receives when frame [id] ends with failure [e]. *)
Definition report_of (id : nat) (e : exn) : Report :=
  match e with
  | std_exception n r =>
      mkReport id n r (my_backtrace.toString show_pointer (trace_of id))
  | other_exception _ =>
      mkReport id "Unknown Exception" "Unhandled exception of unknown type"
               (my_backtrace.toString show_pointer (trace_of id))
  end.

(** The calls of [l] made for frame [id]. *)
Definition own (id : nat) (l : list Report) : list Report :=
  filter (fun r => Nat.eqb (reporter r) id) l.

(** The reports a terminal or suspended frame accounts for. *)
Definition due_reports (f : coroutine_frame) : list Report :=
  match state f, result_slot (promise f) with
  | at_final_suspend, holds_exception_ptr (Some e) => [report_of (frame_id f) e]
  | _, _ => []
  end.

(** The body has no suspension point: neither a bare suspend nor an await. *)
Fixpoint never_awaits {A : Type} (p : Prog A) : Prop :=
  match p with
  | Pure _ | CoReturn _ | Throw _ => True
  | Print _ k => never_awaits k
  | Suspend _ => False
  | AwaitCall _ _ => False
  | TryCatch block _ handler k =>
      never_awaits block /\ (forall e, never_awaits (handler e)) /\ never_awaits k
  end.

(** [w] comes after [w0], and every call the sink got in between was made
    for a frame numbered [n] or more. *)
Definition extends (n : nat) (w0 w : World) : Prop :=
  frames_created w0 <= frames_created w /\
  exists d, reports w = (reports w0 ++ d)%list /\
            Forall (fun r => n <= reporter r) d.

(** A run that started in [w0] stays defined, only reports for frames
    numbered [n] or more, and so does every later resumption. *)
Fixpoint safe {A : Type} (n : nat) (w0 : World) (r : Res A) : Prop :=
  match r with
  | Done _ w | Returned _ w | Threw _ w => extends n w0 w
  | Paused k w =>
      extends n w0 w /\
      forall w', n <= frames_created w' -> safe n w' (k w')
  | Undefined _ => False
  end.

(** What a suspended or finished frame can be relied on for: its trace is
    the one captured when it started, a resumption stays defined and reports
    only for frames created after it, and a finished frame holds a value or a
    failure. *)
Definition frame_inv (f : coroutine_frame) : Prop :=
  stackTrace (promise f) = trace_of (frame_id f) /\
  match state f with
  | suspended_at k =>
      forall w, frame_id f < frames_created w -> safe (S (frame_id f)) w (k w)
  | at_final_suspend => result_slot (promise f) <> holds_exception_ptr None
  end.

(** The state of a task and of the world during the life of the task made
    from frame [id] in world [w0]: the task still owns that frame, and of the
    calls the sink got since [w0], those made for the frame are the ones its
    state accounts for. *)
Definition task_inv (id : nat) (w0 : World) (s : TracedTask * World) : Prop :=
  exists f d,
    handle (fst s) = Some f /\ frame_id f = id /\ frame_inv f /\
    id < frames_created (snd s) /\
    reports (snd s) = (reports w0 ++ d)%list /\
    own id d = due_reports f.

End Task.

(** The world after the texts of [l] went to [std::cout]. *)
Definition printed (l : list string) (w : World) : World :=
  fold_left (fun w s => print s w) l w.

Arguments Pure {T A} a.
Arguments CoReturn {T A} v.
Arguments Throw {T A} e.
Arguments Print {T A} s k.
Arguments Suspend {T A} k.
Arguments AwaitCall {T A} callee k.
Arguments TryCatch {T A} block catches handler k.
Arguments Done {T A} a w.
Arguments Returned {T A} v w.
Arguments Threw {T A} e w.
Arguments Paused {T A} resume w.
Arguments Undefined {T A} w.
Arguments holds_exception_ptr {T} e.
Arguments holds_Success {T} value.
Arguments returns {T} v.
Arguments throws {T} e.
Arguments undefined {T}.
Arguments at_final_suspend {T}.
Arguments suspended_at {T} resume.
Arguments mkPromise {T} result_slot stackTrace.
Arguments result_slot {T} p.
Arguments stackTrace {T} p.
Arguments promise_default {T}.
Arguments mkFrame {T} frame_id promise state.
Arguments frame_id {T} c.
Arguments promise {T} c.
Arguments state {T} c.
Arguments mkTask {T} handle.
Arguments handle {T} t.
Arguments done {T} f.
Arguments initial_suspend {T} provider_at id p.
Arguments return_value {T} p value.
Arguments unhandled_exception {T} p current_exception.
Arguments get_if_exception_ptr {T} v.
Arguments final_suspend {T} show_pointer h p w.
Arguments settle {T} show_pointer id p r.
Arguments coroutine_call {T} show_pointer provider_at body w.
Arguments handle_resume {T} show_pointer f k w.
Arguments is_ready {T} t.
Arguments rethrow_exception {T} e.
Arguments result {T} t.
Arguments run {T} show_pointer t w.
Arguments move_construct {T} other.
Arguments move_assign {T} this other.
Arguments await_ready {T} t.
Arguments await_suspend {T} show_pointer t w.
Arguments await_resume {T} t.
Arguments co_await {T} show_pointer t w.
Arguments catch_res {T} r catches handler.
Arguments bind_res {T A} r k.
Arguments exec {T} show_pointer provider_at {A} p w.
Arguments create {T} show_pointer provider_at body w.
Arguments step_op {T} show_pointer op s.
Arguments lifetime {T} show_pointer ops s.
Arguments prints {T A} l k.
Arguments due_reports {T} show_pointer provider_at f.
Arguments never_awaits {T A} p.
Arguments safe {T A} n w0 r.
Arguments frame_inv {T} provider_at f.
Arguments task_inv {T} show_pointer provider_at id w0 s.

(** ** The tasks of main.cpp ([TracedTask<int>]) *)

(** [operator<<] of an [int]. *)
Definition show_int (z : Z) : string := NilZero.string_of_int (Z.to_int z).

Definition thirdLevelTask : Body Z :=
  Print "  Third level task - Throwing exception"
    (Throw (runtime_error "Exception from third level task")).

Definition secondLevelTask : Body Z :=
  Print " Second level task - Calling third level"
    (AwaitCall thirdLevelTask (fun result => CoReturn (result * 2)%Z)).

Definition topLevelTask : Body Z :=
  Print "Top level task - Calling second level"
    (AwaitCall secondLevelTask
       (fun result => Print ("Result: " ++ show_int result) (CoReturn 1%Z))).

Definition handledExceptionTask : Body Z :=
  Print "Task with handled exception - Calling second level"
    (TryCatch
       (AwaitCall secondLevelTask
          (fun result => Print ("Result: " ++ show_int result) (Pure tt)))
       is_std_exception
       (fun e => Print ("Exception caught and handled: " ++ what_of e) (Pure tt))
       (CoReturn 1%Z)).

(** ** The driver of main.cpp *)

(** [runTask(task, taskName)].  An entry of [cout] is the text of one run of
    insertions, a closing [std::endl] left out and a newline inside the text
    kept; the statement that prints the result is cut in two by the
    call of [task.result()], which comes after its left operand has been
    written: the prefix is out before the call, the value after it.  The
    handler takes objects derived from [std::exception] only; anything else
    leaves [runTask]. *)
Definition runTask {T : Type} (show_pointer : N -> string)
    (show_value : T -> string) (task : TracedTask T) (taskName : string)
    (w : World) : TracedTask T * World * call_result unit :=
  let w := print ("Running task: " ++ taskName) w in
  let '(task, w) := run show_pointer task w in
  let w := print "Task completed with result: " w in
  match result task with
  | returns v => (task, print (show_value v) w, returns tt)
  | throws e =>
      if is_std_exception e
      then (task, print ("Caught exception: " ++ what_of e) w, returns tt)
      else (task, w, throws e)
  | undefined => (task, w, undefined)
  end.

(** [main]: the banner, the first example, an empty line; the second example
    is commented out in the source.  The value is the exit status. *)
Definition main (show_pointer : N -> string) (provider_at : nat -> Provider)
    (w : World) : World * call_result Z :=
  let w := print ("=== Nested Coroutines with Exception Tracing ===" ++ newline
                    ++ newline) w in
  let w := print ("Example 1: Unhandled exception through nested coroutines"
                    ++ newline) w in
  let '(task, w) := create show_pointer provider_at topLevelTask w in
  let '(_, w, r) := runTask show_pointer show_int task "TopLevelTask" w in
  match r with
  | returns _ => (print newline w, returns 0%Z)
  | throws e => (w, throws e)
  | undefined => (w, undefined)
  end.

(** ** The older variant of the task (the [Task] file)

    The same protocol with another promise: the value sits in a
    [std::optional], the failure in an [exception_ptr] of its own, the trace
    comes from [CaptureStackTrace] and is written by [FormatStackTrace], and
    the usage error reads "Task not completed".  Bodies are the same trees. *)

Module Task_variant.

Section Task.

Variable T : Type.
Variable show_pointer : N -> string.
Variable provider_at : nat -> Provider.

Section Reporter.

Variable S : Type.
Variable RecordException : string -> string -> string -> S -> outcome S.

Definition ReportExceptionToFirebase (exception : exception_ptr)
    (stackTrace : list part_002.StackFrame) (s : S) : outcome S :=
  match exception with
  | None => normal s
  | Some (std_exception name what) =>
      let stackTraceStr := part_002.FormatStackTrace show_pointer stackTrace in
      RecordException name what stackTraceStr s
  | Some (other_exception _) =>
      let stackTraceStr := part_002.FormatStackTrace show_pointer stackTrace in
      RecordException "Unknown Exception" "Unhandled exception of unknown type"
                      stackTraceStr s
  end.

End Reporter.

Record promise_type : Type := mkPromise {
  result_slot : option T;
  exception_slot : exception_ptr;
  stackTrace : list part_002.StackFrame
}.

Definition promise_default : promise_type := mkPromise None None [].

Inductive coroutine_state : Type :=
| suspended_at (resume : World -> Res T Empty_set)
| at_final_suspend.

Record coroutine_frame : Type := mkFrame {
  frame_id : nat;
  promise : promise_type;
  state : coroutine_state
}.

Definition done (f : coroutine_frame) : bool :=
  match state f with
  | at_final_suspend => true
  | suspended_at _ => false
  end.

Record Task : Type := mkTask {
  handle : option coroutine_frame
}.

(** [initial_suspend]; [None] when the capture runs into undefined
    behaviour. *)
Definition initial_suspend (id : nat) (p : promise_type) : option promise_type :=
  match part_002.CaptureStackTrace (provider_at id) with
  | Some trace => Some (mkPromise (result_slot p) (exception_slot p) trace)
  | None => None
  end.

Definition return_value (p : promise_type) (value : T) : promise_type :=
  mkPromise (Some value) (exception_slot p) (stackTrace p).

Definition unhandled_exception (p : promise_type) (current_exception : exn)
  : promise_type :=
  mkPromise (result_slot p) (Some current_exception) (stackTrace p).

(** [final_awaiter::await_suspend(h)]: [if (p.exception)] the report is made. *)
Definition final_suspend (h : nat) (p : promise_type) (w : World) : World :=
  match exception_slot p with
  | Some e =>
      match ReportExceptionToFirebase World (sink h) (Some e) (stackTrace p) w with
      | normal w' => w'
      | raised _ w' => w'
      end
  | None => w
  end.

Definition settle (id : nat) (p : promise_type) (r : Res T Empty_set)
  : coroutine_frame * World :=
  match r with
  | Done a _ => match a with end
  | Returned v w =>
      let p := return_value p v in
      (mkFrame id p at_final_suspend, final_suspend id p w)
  | Threw e w =>
      let p := unhandled_exception p e in
      (mkFrame id p at_final_suspend, final_suspend id p w)
  | Paused k w => (mkFrame id p (suspended_at k), w)
  | Undefined w => (mkFrame id p (suspended_at (fun w' => Undefined w')), w)
  end.

(** Calling a coroutine function; [None] when [initial_suspend] is undefined,
    before the body starts. *)
Definition coroutine_call (body : World -> Res T Empty_set) (w : World)
  : option (Task * World) :=
  let id := frames_created w in
  let w := allocate_frame w in
  match initial_suspend id promise_default with
  | Some p =>
      let '(f, w) := settle id p (body w) in
      Some (mkTask (Some f), w)
  | None => None
  end.

Definition handle_resume (f : coroutine_frame) (k : World -> Res T Empty_set)
    (w : World) : coroutine_frame * World :=
  settle (frame_id f) (promise f) (k w).

Definition is_ready (t : Task) : bool :=
  match handle t with
  | Some h => done h
  | None => false
  end.

Definition not_completed : exn := runtime_error "Task not completed".

(** [result()]: the stored failure first, then the value; [undefined] is the
    dereference of an empty optional. *)
Definition result (t : Task) : call_result T :=
  if negb (is_ready t) then throws not_completed
  else
    match handle t with
    | Some h =>
        match exception_slot (promise h) with
        | Some e => throws e
        | None =>
            match result_slot (promise h) with
            | Some value => returns value
            | None => undefined
            end
        end
    | None => throws not_completed
    end.

Definition run (t : Task) (w : World) : Task * World :=
  match handle t with
  | Some h =>
      match state h with
      | suspended_at k =>
          let '(h', w') := handle_resume h k w in (mkTask (Some h'), w')
      | at_final_suspend => (t, w)
      end
  | None => (t, w)
  end.

Definition await_ready (t : Task) : bool := is_ready t.

Definition await_suspend (t : Task) (w : World) : option (Task * World) :=
  match handle t with
  | Some h =>
      match state h with
      | suspended_at k =>
          let '(h', w') := handle_resume h k w in Some (mkTask (Some h'), w')
      | at_final_suspend => None
      end
  | None => None
  end.

Definition await_resume (t : Task) : call_result T := result t.

Definition co_await (t : Task) (w : World) : option (call_result T * World) :=
  if await_ready t then Some (await_resume t, w)
  else
    match await_suspend t w with
    | Some (t', w') => Some (await_resume t', w')
    | None => None
    end.

Fixpoint exec {A : Type} (p : Prog T A) (w : World) : Res T A :=
  match p with
  | Pure a => Done a w
  | CoReturn v => Returned v w
  | Throw e => Threw e w
  | Print s k => exec k (print s w)
  | Suspend k => Paused (exec k) w
  | AwaitCall callee k =>
      match coroutine_call (exec callee) w with
      | Some (task, w1) =>
          match co_await task w1 with
          | Some (returns v, w2) => exec (k v) w2
          | Some (throws e, w2) => Threw e w2
          | Some (undefined, w2) => Undefined w2
          | None => Undefined w1
          end
      | None => Undefined (allocate_frame w)
      end
  | TryCatch block catches handler k =>
      bind_res (catch_res (exec block w) catches (fun e => exec (handler e)))
               (exec k)
  end.

Definition create (body : Body T) (w : World) : option (Task * World) :=
  coroutine_call (exec body) w.

(** [RunTask(task, taskName)]: [result] is only asked of a ready task. *)
Definition RunTask (show_value : T -> string) (task : Task) (taskName : string)
    (w : World) : Task * World * call_result unit :=
  let w := print ("Running task: " ++ taskName) w in
  let '(task, w) := run task w in
  if is_ready task then
    let w := print "Task completed with result: " w in
    match result task with
    | returns v => (task, print (show_value v) w, returns tt)
    | throws e =>
        if is_std_exception e
        then (task, print ("Caught exception: " ++ what_of e) w, returns tt)
        else (task, w, throws e)
    | undefined => (task, w, undefined)
    end
  else (task, w, returns tt).

End Task.

Arguments mkPromise {T} result_slot exception_slot stackTrace.
Arguments result_slot {T} p.
Arguments exception_slot {T} p.
Arguments stackTrace {T} p.
Arguments mkFrame {T} frame_id promise state.
Arguments frame_id {T} c.
Arguments promise {T} c.
Arguments state {T} c.
Arguments mkTask {T} handle.
Arguments handle {T} t.
Arguments at_final_suspend {T}.
Arguments suspended_at {T} resume.
Arguments ReportExceptionToFirebase show_pointer {S} RecordException
  exception stackTrace s.
Arguments coroutine_call {T} show_pointer provider_at body w.
Arguments is_ready {T} t.
Arguments result {T} t.
Arguments run {T} show_pointer t w.
Arguments exec {T} show_pointer provider_at {A} p w.
Arguments create {T} show_pointer provider_at body w.
Arguments RunTask {T} show_pointer show_value task taskName w.

Definition ThirdLevelTask : Body Z :=
  Print "  Third level task - Throwing exception"
    (Throw (runtime_error "Exception from third level task")).

Definition SecondLevelTask : Body Z :=
  Print " Second level task - Calling third level"
    (AwaitCall ThirdLevelTask (fun result => CoReturn (result * 2)%Z)).

(** The handler of [TopLevelTask] takes everything and throws it again. *)
Definition TopLevelTask : Body Z :=
  Print "Top level task - Calling second level"
    (TryCatch
       (AwaitCall SecondLevelTask
          (fun result => Print ("Result: " ++ show_int result) (Pure tt)))
       (fun _ => true)
       (fun e => Throw e)
       (CoReturn 1%Z)).

Definition HandledExceptionTask : Body Z :=
  Print "Task with handled exception - Calling second level"
    (TryCatch
       (AwaitCall SecondLevelTask
          (fun result => Print ("Result: " ++ show_int result) (Pure tt)))
       is_std_exception
       (fun e => Print ("Exception caught and handled: " ++ what_of e) (Pure tt))
       (CoReturn 1%Z)).

(** [main]: both examples, one after the other. *)
Definition main (show_pointer : N -> string) (provider_at : nat -> Provider)
    (w : World) : World * call_result Z :=
  let w := print ("=== Nested Coroutines with Exception Tracing ===" ++ newline
                    ++ newline) w in
  let w := print ("Example 1: Unhandled exception through nested coroutines"
                    ++ newline) w in
  match create show_pointer provider_at TopLevelTask w with
  | None => (w, undefined)
  | Some (task, w) =>
      let '(_, w, r) := RunTask show_pointer show_int task "TopLevelTask" w in
      match r with
      | returns _ =>
          let w := print newline w in
          let w := print ("Example 2: Handled exception across coroutines"
                            ++ newline) w in
          match create show_pointer provider_at HandledExceptionTask w with
          | None => (w, undefined)
          | Some (task, w) =>
              let '(_, w, r) :=
                RunTask show_pointer show_int task "HandledExceptionTask" w in
              match r with
              | returns _ => (w, returns 0%Z)
              | throws e => (w, throws e)
              | undefined => (w, undefined)
              end
          end
      | throws e => (w, throws e)
      | undefined => (w, undefined)
      end
  end.

(** The trace frame [id] of this variant stores, when its capture is
    defined. *)
Definition trace_of (provider_at : nat -> Provider) (id : nat)
  : list part_002.StackFrame :=
  match part_002.CaptureStackTrace (provider_at id) with
  | Some trace => trace
  | None => []
  end.

(** The call the sink receives when frame [id] of this variant ends with
    failure [e]. *)
Definition report_of (show_pointer : N -> string) (provider_at : nat -> Provider)
    (id : nat) (e : exn) : Report :=
  mkReport id (fst (kind_and_message e)) (snd (kind_and_message e))
    (part_002.FormatStackTrace show_pointer (trace_of provider_at id)).

End Task_variant.

(** ** Sample values used by the examples *)

Module Sample.

Definition show_pointer (a : N) : string := "@" ++ dec a.

Definition info_foo : Dl_info :=
  mkDl_info (Some "/usr/lib/libdemo.so") (Some 4096%N) (Some "_Z3foov") (Some 4200%N).

Definition info_anon : Dl_info :=
  mkDl_info (Some "/usr/bin/demo") None None None.

Definition info_odd : Dl_info :=
  mkDl_info None (Some 8192%N) (Some "not_mangled") None.

Definition resolve (a : N) : option Dl_info :=
  if (a =? 4242)%N then Some info_foo
  else if (a =? 5000)%N then Some info_anon
  else if (a =? 9000)%N then Some info_odd
  else None.

Definition demangle (n : string) : demangle_result :=
  if String.eqb n "_Z3foov" then mkDemangle (Some "foo()") 0%Z
  else mkDemangle None (-2)%Z.

Definition describe (a : N) : option string := Some ("raw@" ++ dec a).

(** Six active frames, with symbol table. *)
Definition provider : Provider :=
  mkProvider [10; 20; 4242; 5000; 9000; 7777]%N true describe resolve demangle.

Definition providers (n : nat) : Provider :=
  mkProvider [10; 20; N.of_nat n; 4242]%N true describe resolve demangle.

Definition world0 : World := mkWorld 0 [] [].

(** A sink that always fails. *)
Definition broken_sink (name reason stack_trace : string) (s : unit)
  : outcome unit :=
  raised (runtime_error "sink unavailable") s.

End Sample.

(** * Properties *)

(** ** Texts and lists *)

Lemma append_assoc (a b c : string) : (a ++ b) ++ c = a ++ (b ++ c).
Proof.
  induction a as [|ch a IH]; simpl; [reflexivity|].
  now rewrite IH.
Qed.

Lemma append_empty_r (a : string) : a ++ "" = a.
Proof.
  induction a as [|ch a IH]; simpl; [reflexivity|].
  now rewrite IH.
Qed.

Lemma empty_true_iff (s : string) : empty s = true <-> s = "".
Proof.
  destruct s; simpl; split; intro H; try reflexivity; discriminate H.
Qed.

Lemma skipn_as_indices {A : Type} (d : A) (l : list A) :
  forall a, map (fun i => nth i l d) (seq a (length l - a)) = skipn a l.
Proof.
  induction l as [|x l IH]; intros a.
  - destruct a; reflexivity.
  - destruct a as [|a].
    + simpl length. rewrite Nat.sub_0_r. simpl seq. simpl map. simpl skipn.
      f_equal. rewrite <- seq_shift, map_map. simpl.
      specialize (IH 0). rewrite Nat.sub_0_r in IH. exact IH.
    + simpl length. simpl Nat.sub. simpl skipn.
      rewrite <- seq_shift, map_map. simpl. apply IH.
Qed.

(** ** Backtrace capture *)

Lemma fold_current_step (P : Provider) (cs : list N) (syms : list (option string))
    (idx : list nat) :
  forall acc,
    fold_left (my_backtrace.current_step P cs syms) idx acc =
    (acc ++ map (fun i => my_backtrace.mkStackFrame (nth i cs 0%N)
                   (my_backtrace.intoSymbolicInfo P (nth i cs 0%N) (nth i syms None)))
                idx)%list.
Proof.
  induction idx as [|i idx IH]; intros acc; simpl.
  - now rewrite app_nil_r.
  - rewrite IH. unfold my_backtrace.current_step. now rewrite <- app_assoc.
Qed.

Lemma current_with_symbols (D : nat) (P : Provider) :
  symbols_ok P = true ->
  my_backtrace.current D P =
  map (my_backtrace.resolve_frame P) (skipn 2 (firstn D (call_stack P))).
Proof.
  intros Hok. unfold my_backtrace.current, backtrace, backtrace_symbols.
  rewrite Hok. set (cs := firstn D (call_stack P)).
  destruct (Z.leb_spec (Z.of_nat (length cs)) 0) as [Hle|Hgt].
  - assert (length cs = 0) as H0 by lia.
    destruct cs; [reflexivity|discriminate H0].
  - rewrite Nat2Z.id, fold_current_step. simpl app.
    rewrite <- (skipn_as_indices 0%N cs 2), map_map.
    apply map_ext_in. intros i Hi. apply in_seq in Hi.
    unfold my_backtrace.resolve_frame. do 2 f_equal.
    rewrite (nth_indep _ None (symbol_text P 0%N)) by (rewrite length_map; lia).
    apply map_nth.
Qed.

Lemma current_without_symbols (D : nat) (P : Provider) :
  symbols_ok P = false -> my_backtrace.current D P = [].
Proof.
  intros Hno. unfold my_backtrace.current, backtrace_symbols. rewrite Hno.
  now destruct (_ <=? 0)%Z.
Qed.

(** C8: the capture drops the first two addresses the provider stores, looks
    at no more than [DEPTH_MAX] of them (128 by default), and comes back with
    an empty trace when the provider has no frame or no symbol table. *)
Theorem current_skips_and_bounds (DEPTH_MAX : nat) (P : Provider) :
  (symbols_ok P = true ->
   my_backtrace.current DEPTH_MAX P =
   map (my_backtrace.resolve_frame P)
       (skipn 2 (firstn DEPTH_MAX (call_stack P)))) /\
  length (my_backtrace.current DEPTH_MAX P) <= DEPTH_MAX - 2 /\
  length (my_backtrace.current DEPTH_MAX P) <= length (call_stack P) - 2 /\
  (call_stack P = [] -> my_backtrace.current DEPTH_MAX P = []) /\
  (symbols_ok P = false -> my_backtrace.current DEPTH_MAX P = []) /\
  my_backtrace.DEPTH_MAX_default = 128.
Proof.
  assert (length (my_backtrace.current DEPTH_MAX P) <=
          length (firstn DEPTH_MAX (call_stack P)) - 2) as Hlen.
  { destruct (symbols_ok P) eqn:Hok.
    - rewrite (current_with_symbols _ _ Hok), length_map, length_skipn. lia.
    - rewrite (current_without_symbols _ _ Hok). simpl. lia. }
  rewrite length_firstn in Hlen.
  repeat split.
  - apply current_with_symbols.
  - lia.
  - lia.
  - intros Hnil. destruct (symbols_ok P) eqn:Hok.
    + rewrite (current_with_symbols _ _ Hok), Hnil.
      now destruct DEPTH_MAX as [|[|n]].
    + now apply current_without_symbols.
  - apply current_without_symbols.
Qed.

Lemma current_skips_and_bounds_witness :
  my_backtrace.current 128 Sample.provider =
  map (my_backtrace.resolve_frame Sample.provider) [4242; 5000; 9000; 7777]%N /\
  my_backtrace.current 128
    (mkProvider [] true Sample.describe Sample.resolve Sample.demangle) = [] /\
  my_backtrace.current 128
    (mkProvider [1; 2; 3]%N false Sample.describe Sample.resolve Sample.demangle) = [].
Proof.
  split; [|split].
  - exact (proj1 (current_skips_and_bounds 128 Sample.provider) eq_refl).
  - exact (proj1 (proj2 (proj2 (proj2
             (current_skips_and_bounds 128
                (mkProvider [] true Sample.describe Sample.resolve
                            Sample.demangle))))) eq_refl).
  - exact (proj1 (proj2 (proj2 (proj2 (proj2
             (current_skips_and_bounds 128
                (mkProvider [1; 2; 3]%N false Sample.describe Sample.resolve
                            Sample.demangle)))))) eq_refl).
Defined.

(** ** Symbol resolution *)

(** What [intoSymbolicInfo] puts in [symbol] once [dladdr] has found a symbol
    name, for a demangler that keeps its contract. *)
Lemma intoSymbolicInfo_symbol (P : Provider) (a : N) (raw : option string)
    (info : Dl_info) (sname : string) :
  demangler_contract P ->
  dladdr P a = Some info ->
  dli_sname info = Some sname ->
  my_backtrace.symbol (my_backtrace.intoSymbolicInfo P a raw) =
  match demangled (cxa_demangle P sname) with
  | Some _ => util.ptr_to_string raw
  | None => ""
  end.
Proof.
  intros Hc Hdl Hs. unfold my_backtrace.intoSymbolicInfo.
  rewrite Hdl, Hs. simpl. specialize (Hc sname).
  destruct (Z.eqb_spec (status (cxa_demangle P sname)) 0) as [H0|Hn]; simpl.
  - apply Hc in H0. now destruct (demangled (cxa_demangle P sname)).
  - destruct (demangled (cxa_demangle P sname)) eqn:Hd; [|reflexivity].
    exfalso. apply Hn, Hc. discriminate.
Qed.

(** The older capture routine keeps the demangled name when there is one and
    the symbol name of [dladdr] otherwise. *)
Lemma frame_symbol_demangles (P : Provider) (a : N) (raw : option string)
    (info : Dl_info) (sname : string) :
  dladdr P a = Some info ->
  dli_sname info = Some sname ->
  part_002.frame_symbol P a raw =
  match demangled (cxa_demangle P sname) with
  | Some d => Some d
  | None => Some sname
  end.
Proof.
  intros Hdl Hs. unfold part_002.frame_symbol. now rewrite Hdl, Hs.
Qed.

(** C6: [intoSymbolicInfo] takes the two branches of its demangling test the
    wrong way round.  At address 4242 the symbol [_Z3foov] demangles to
    [foo()], yet the frame gets the raw text of [backtrace_symbols]; at
    address 9000 demangling fails and the frame gets no symbol although a raw
    text is there.  The older routine gives [foo()] and the name found by
    [dladdr]. *)
Theorem intoSymbolicInfo_demangle_branches_swapped :
  demangler_contract Sample.provider /\
  demangled (cxa_demangle Sample.provider "_Z3foov") = Some "foo()" /\
  status (cxa_demangle Sample.provider "_Z3foov") = 0%Z /\
  my_backtrace.symbol
    (my_backtrace.intoSymbolicInfo Sample.provider 4242 (Some "raw@4242"))
  = "raw@4242" /\
  demangled (cxa_demangle Sample.provider "not_mangled") = None /\
  my_backtrace.symbol
    (my_backtrace.intoSymbolicInfo Sample.provider 9000 (Some "raw@9000"))
  = "" /\
  part_002.frame_symbol Sample.provider 4242 (Some "raw@4242") = Some "foo()" /\
  part_002.frame_symbol Sample.provider 9000 (Some "raw@9000")
  = Some "not_mangled".
Proof.
  split; [|repeat split].
  intros name. simpl. unfold Sample.demangle.
  destruct (String.eqb name "_Z3foov"); simpl; split; intros H;
    try reflexivity; try discriminate; now contradiction H.
Qed.

(** ** Formatting *)

Section FormattingProperties.

Variable show_pointer : N -> string.

Lemma toString_step_line (ss : string) (i : N) (f : my_backtrace.StackFrame) :
  my_backtrace.toString_step show_pointer ss i f =
  ss ++ my_backtrace.frame_line show_pointer i f.
Proof.
  unfold my_backtrace.toString_step, my_backtrace.frame_line,
    my_backtrace.symbol_field, my_backtrace.offset_field,
    my_backtrace.module_field.
  destruct (empty (my_backtrace.symbol (my_backtrace.symbolicInfo f)));
    destruct (0 <? my_backtrace.offset (my_backtrace.symbolicInfo f))%N;
    destruct (empty (my_backtrace.fileName (my_backtrace.symbolicInfo f)));
    simpl negb; cbv iota; repeat rewrite append_assoc; simpl; reflexivity.
Qed.

Lemma toString_loop_lines (frames : list my_backtrace.StackFrame) :
  forall ss i,
    my_backtrace.toString_loop show_pointer ss i frames =
    ss ++ join (my_backtrace.frame_lines show_pointer i frames).
Proof.
  induction frames as [|f frames IH]; intros ss i; simpl.
  - now rewrite append_empty_r.
  - now rewrite IH, toString_step_line, append_assoc.
Qed.

Lemma frame_lines_length (frames : list my_backtrace.StackFrame) :
  forall i, length (my_backtrace.frame_lines show_pointer i frames) = length frames.
Proof.
  induction frames as [|f frames IH]; intros i; simpl; [reflexivity|].
  now rewrite IH.
Qed.

Lemma frame_lines_nth (frames : list my_backtrace.StackFrame) :
  forall i n f,
    nth_error frames n = Some f ->
    nth_error (my_backtrace.frame_lines show_pointer i frames) n =
    Some (my_backtrace.frame_line show_pointer (i + N.of_nat n) f).
Proof.
  induction frames as [|g frames IH]; intros i n f Hn.
  - destruct n; discriminate Hn.
  - destruct n as [|n].
    + simpl in Hn. injection Hn as ->. simpl. now rewrite N.add_0_r.
    + simpl in Hn. simpl nth_error. rewrite (IH _ _ _ Hn).
      do 2 f_equal. lia.
Qed.

Lemma FormatStackTrace_loop_toString (frames : list part_002.StackFrame) :
  forall ss i,
    part_002.FormatStackTrace_loop show_pointer ss i frames =
    my_backtrace.toString_loop show_pointer ss i (map part_002.to_frame frames).
Proof.
  induction frames as [|f frames IH]; intros ss i; simpl; [reflexivity|].
  now rewrite IH.
Qed.

(** C9: the text of a trace is a function of the trace; it is made of one
    line per frame, in the order of the trace, line [n] showing index [n], the
    address, the symbol or [???]; the offset field is there exactly when the
    offset is not zero and the module field exactly when the file name is not
    empty.  The older formatter writes the same text. *)
Theorem toString_one_line_per_frame (stackTrace : my_backtrace.StackTrace) :
  (forall other, other = stackTrace ->
     my_backtrace.toString show_pointer other =
     my_backtrace.toString show_pointer stackTrace) /\
  my_backtrace.toString show_pointer stackTrace =
    join (my_backtrace.frame_lines show_pointer 0 stackTrace) /\
  length (my_backtrace.frame_lines show_pointer 0 stackTrace) = length stackTrace /\
  (forall n f, nth_error stackTrace n = Some f ->
     nth_error (my_backtrace.frame_lines show_pointer 0 stackTrace) n =
     Some ("#" ++ dec (N.of_nat n) ++ ": " ++ show_pointer (my_backtrace.address f)
           ++ " " ++ my_backtrace.symbol_field f ++ my_backtrace.offset_field f
           ++ my_backtrace.module_field f ++ newline)) /\
  (forall f,
     (my_backtrace.symbol_field f =
        if empty (my_backtrace.symbol (my_backtrace.symbolicInfo f)) then "???"
        else my_backtrace.symbol (my_backtrace.symbolicInfo f)) /\
     (my_backtrace.offset_field f = "" <->
        my_backtrace.offset (my_backtrace.symbolicInfo f) = 0%N) /\
     ((0 < my_backtrace.offset (my_backtrace.symbolicInfo f))%N ->
        my_backtrace.offset_field f =
        " +" ++ dec (my_backtrace.offset (my_backtrace.symbolicInfo f))) /\
     (my_backtrace.module_field f = "" <->
        my_backtrace.fileName (my_backtrace.symbolicInfo f) = "") /\
     (my_backtrace.fileName (my_backtrace.symbolicInfo f) <> "" ->
        my_backtrace.module_field f =
        " in " ++ my_backtrace.fileName (my_backtrace.symbolicInfo f))) /\
  (forall old, part_002.FormatStackTrace show_pointer old =
     my_backtrace.toString show_pointer (map part_002.to_frame old)).
Proof.
  split; [intros other ->; reflexivity|].
  split; [unfold my_backtrace.toString; now rewrite toString_loop_lines|].
  split; [apply frame_lines_length|].
  split.
  { intros n f Hn. rewrite (frame_lines_nth _ _ _ _ Hn). reflexivity. }
  split.
  { intros f. unfold my_backtrace.offset_field, my_backtrace.module_field.
    split; [reflexivity|].
    destruct (N.ltb_spec 0 (my_backtrace.offset (my_backtrace.symbolicInfo f)))
      as [Hpos|Hz].
    - split; [split; [discriminate|lia]|].
      split; [reflexivity|].
      destruct (empty _) eqn:He.
      + apply empty_true_iff in He. rewrite He. split; [tauto|congruence].
      + split; [split; [discriminate|]|reflexivity].
        intros H0. rewrite H0 in He. discriminate He.
    - split; [split; [lia|reflexivity]|].
      split; [lia|].
      destruct (empty _) eqn:He.
      + apply empty_true_iff in He. rewrite He. split; [tauto|congruence].
      + split; [split; [discriminate|]|reflexivity].
        intros H0. rewrite H0 in He. discriminate He. }
  intros old. unfold part_002.FormatStackTrace, my_backtrace.toString.
  apply FormatStackTrace_loop_toString.
Qed.

End FormattingProperties.

Lemma toString_one_line_per_frame_witness :
  my_backtrace.toString Sample.show_pointer
    (my_backtrace.current 128 Sample.provider) =
  join (my_backtrace.frame_lines Sample.show_pointer 0
          (my_backtrace.current 128 Sample.provider)) /\
  nth_error (my_backtrace.frame_lines Sample.show_pointer 0
               (my_backtrace.current 128 Sample.provider)) 2 =
  Some ("#2: @9000 ??? +808" ++ newline).
Proof.
  pose proof (toString_one_line_per_frame Sample.show_pointer
                (my_backtrace.current 128 Sample.provider)) as H.
  split.
  - exact (proj1 (proj2 H)).
  - exact (proj1 (proj2 (proj2 (proj2 H))) 2
             (my_backtrace.resolve_frame Sample.provider 9000) eq_refl).
Defined.

(** ** The reporter *)

(** C5, as stated, fails: nothing stands between the sink and the caller of
    the reporter, so a sink that throws makes the report throw. *)
Lemma report_raises_with_broken_sink :
  reportExceptionToFirebase Sample.show_pointer Sample.broken_sink
    (Some (runtime_error "boom"))
    (my_backtrace.current 128 Sample.provider) tt
  = raised (runtime_error "sink unavailable") tt.
Proof. reflexivity. Qed.

(** C5, amended: the report comes back the way the sink call does.  It throws
    exactly when it is given a failure and the sink throws on the kind name,
    message and trace text made from it; with a null pointer the sink is not
    called; with the sink of the repository it never throws. *)
Theorem report_raises_iff_sink_raises (S : Type)
    (RecordException : string -> string -> string -> S -> outcome S)
    (show_pointer : N -> string)
    (exceptionPtr : exception_ptr) (stackTrace : my_backtrace.StackTrace) (s : S) :
  (forall x s',
     reportExceptionToFirebase show_pointer RecordException exceptionPtr stackTrace s
       = raised x s' <->
     exists e, exceptionPtr = Some e /\
       RecordException (fst (kind_and_message e)) (snd (kind_and_message e))
         (my_backtrace.toString show_pointer stackTrace) s = raised x s') /\
  reportExceptionToFirebase show_pointer RecordException None stackTrace s
    = normal s /\
  (forall caller w,
     reportExceptionToFirebase show_pointer (sink caller) exceptionPtr stackTrace w
     = normal (match exceptionPtr with
               | Some e =>
                   firebase.RecordException caller (fst (kind_and_message e))
                     (snd (kind_and_message e))
                     (my_backtrace.toString show_pointer stackTrace) w
               | None => w
               end)).
Proof.
  split; [|split].
  - intros x s'. destruct exceptionPtr as [[n r|tag]|]; simpl.
    + split.
      * intros H. exists (std_exception n r). now split.
      * intros [e [He H]]. injection He as <-. exact H.
    + split.
      * intros H. exists (other_exception tag). now split.
      * intros [e [He H]]. injection He as <-. exact H.
    + split; [discriminate|]. intros [e [He _]]. discriminate He.
  - reflexivity.
  - intros caller w. now destruct exceptionPtr as [[n r|tag]|].
Qed.

(** ** The task *)

Section TaskProperties.

Variable T : Type.
Variable show_pointer : N -> string.
Variable provider_at : nat -> Provider.

Local Abbreviation exec' := (exec show_pointer provider_at).
Local Abbreviation create' := (create show_pointer provider_at).
Local Abbreviation call' := (coroutine_call show_pointer provider_at).
Local Abbreviation report' := (report_of show_pointer provider_at).
Local Abbreviation trace' := (trace_of provider_at).

(** *** Usage failures and moved-from tasks *)

(** C10: a task whose handle was moved away is not ready, [run] on it does
    nothing, and [result] throws the same "not completed" error as on a task
    that is still suspended. *)
Theorem moved_from_task_is_inert (t this : TracedTask T) (w : World) :
  let moved := snd (move_construct t) in
  let assigned := snd (move_assign this t) in
  handle (fst (move_construct t)) = handle t /\
  handle (fst (move_assign this t)) = handle t /\
  is_ready moved = false /\
  run show_pointer moved w = (moved, w) /\
  result moved = throws not_completed /\
  is_ready assigned = false /\
  run show_pointer assigned w = (assigned, w) /\
  result assigned = throws not_completed /\
  (forall f k, result (mkTask (Some (mkFrame (frame_id f) (promise f) (suspended_at k))))
               = result moved).
Proof. repeat split. Qed.

(** *** Worlds only grow *)

Lemma extends_refl (n : nat) (w : World) : extends n w w.
Proof.
  split; [lia|]. exists []. split; [now rewrite app_nil_r|constructor].
Qed.

Lemma extends_trans (n : nat) (w0 w1 w2 : World) :
  extends n w0 w1 -> extends n w1 w2 -> extends n w0 w2.
Proof.
  intros [Hf1 [d1 [Hr1 Hd1]]] [Hf2 [d2 [Hr2 Hd2]]].
  split; [lia|]. exists (d1 ++ d2)%list. split.
  - now rewrite Hr2, Hr1, app_assoc.
  - apply Forall_app. now split.
Qed.

Lemma extends_weaken (n m : nat) (w0 w : World) :
  m <= n -> extends n w0 w -> extends m w0 w.
Proof.
  intros Hmn [Hf [d [Hr Hd]]]. split; [exact Hf|]. exists d. split; [exact Hr|].
  eapply Forall_impl; [|exact Hd]. simpl. intros r Hr'. lia.
Qed.

Lemma extends_print (n : nat) (s : string) (w : World) : extends n w (print s w).
Proof.
  split; [simpl; lia|]. exists []. split; [simpl; now rewrite app_nil_r|constructor].
Qed.


Lemma safe_from {A : Type} (n : nat) (w0 w1 : World) (r : Res T A) :
  extends n w0 w1 -> safe n w1 r -> safe n w0 r.
Proof.
  intros He. destruct r; simpl; try (apply extends_trans; exact He); [|tauto].
  intros [H1 H2]. split; [eapply extends_trans; eassumption|exact H2].
Qed.


Lemma safe_catch (catches : exn -> bool) (handler : exn -> World -> Res T unit)
    (n : nat) (r : Res T unit) :
  (forall e w, n <= frames_created w -> safe n w (handler e w)) ->
  forall w0, n <= frames_created w0 -> safe n w0 r ->
             safe n w0 (catch_res r catches handler).
Proof.
  intros Hh. induction r as [a w|v w|e w|k IH w|w]; intros w0 Hn Hs; simpl in *;
    try assumption.
  - destruct (catches e); [|exact Hs].
    apply (safe_from _ _ _ _ Hs). apply Hh. destruct Hs as [Hf _]. lia.
  - destruct Hs as [He Hk]. split; [exact He|].
    intros w' Hw'. apply IH; [exact Hw'|]. now apply Hk.
Qed.

Lemma safe_bind {A : Type} (k : World -> Res T A) (n : nat) (r : Res T unit) :
  (forall w, n <= frames_created w -> safe n w (k w)) ->
  forall w0, n <= frames_created w0 -> safe n w0 r -> safe n w0 (bind_res r k).
Proof.
  intros Hk. induction r as [a w|v w|e w|k0 IH w|w]; intros w0 Hn Hs; simpl in *;
    try assumption.
  - apply (safe_from _ _ _ _ Hs). apply Hk. destruct Hs as [Hf _]. lia.
  - destruct Hs as [He Hk0]. split; [exact He|].
    intros w' Hw'. apply IH; [exact Hw'|]. now apply Hk0.
Qed.

(** *** What the final awaiter reports *)

Lemma own_app (id : nat) (l1 l2 : list Report) :
  own id (l1 ++ l2) = (own id l1 ++ own id l2)%list.
Proof. apply filter_app. Qed.

Lemma own_none (id n : nat) (l : list Report) :
  id < n -> Forall (fun r => n <= reporter r) l -> own id l = [].
Proof.
  intros Hlt Hall. induction Hall as [|r l Hr _ IH]; [reflexivity|].
  simpl. destruct (Nat.eqb_spec (reporter r) id); [lia|exact IH].
Qed.

Lemma own_report_of (id : nat) (e : exn) : own id [report' id e] = [report' id e].
Proof.
  unfold own. simpl. destruct e; simpl; now rewrite Nat.eqb_refl.
Qed.

Lemma own_report_other (id id' : nat) (e : exn) :
  id <> id' -> own id [report' id' e] = [].
Proof.
  intros Hne. unfold own. simpl.
  destruct e; simpl; destruct (Nat.eqb_spec id' id); congruence.
Qed.


Lemma final_suspend_failure (id : nat) (p : promise_type T) (e : exn) (w : World) :
  result_slot p = holds_exception_ptr (Some e) ->
  stackTrace p = trace' id ->
  final_suspend show_pointer id p w =
  firebase.RecordException id (fst (kind_and_message e)) (snd (kind_and_message e))
    (my_backtrace.toString show_pointer (trace' id)) w.
Proof.
  intros H Ht. unfold final_suspend. rewrite H. simpl. rewrite Ht.
  now destruct e.
Qed.

Lemma RecordException_report (id : nat) (e : exn) (w : World) :
  reports (firebase.RecordException id (fst (kind_and_message e))
             (snd (kind_and_message e))
             (my_backtrace.toString show_pointer (trace' id)) w)
  = (reports w ++ [report' id e])%list /\
  frames_created (firebase.RecordException id (fst (kind_and_message e))
             (snd (kind_and_message e))
             (my_backtrace.toString show_pointer (trace' id)) w)
  = frames_created w.
Proof. destruct e; split; reflexivity. Qed.

(** The step that ends every run of a body: where the frame stands and what
    the sink got, relative to the world [w0] the run started from. *)
Lemma settle_spec (id : nat) (p : promise_type T) (r : Res T Empty_set) (w0 : World) :
  stackTrace p = trace' id ->
  safe (S id) w0 r ->
  let f := fst (settle show_pointer id p r) in
  let w' := snd (settle show_pointer id p r) in
  frame_id f = id /\
  frame_inv provider_at f /\
  frames_created w0 <= frames_created w' /\
  exists d, reports w' = (reports w0 ++ d)%list /\
            Forall (fun r => id <= reporter r) d /\
            own id d = due_reports show_pointer provider_at f.
Proof.
  intros Ht Hs. destruct r as [a w|v w|e w|k w|w]; simpl in *.
  - destruct a.
  - destruct Hs as [Hf [d [Hr Hd]]].
    split; [reflexivity|]. split; [split; [exact Ht|simpl; discriminate]|].
    split; [exact Hf|]. exists d. split; [exact Hr|]. split.
    + eapply Forall_impl; [|exact Hd]. simpl. intros; lia.
    + unfold due_reports. simpl. apply (own_none id (S id)); [lia|exact Hd].
  - destruct Hs as [Hf [d [Hr Hd]]].
    rewrite (final_suspend_failure id _ e) by (simpl; auto).
    destruct (RecordException_report id e w) as [Hrep Hfc].
    split; [reflexivity|]. split; [split; [exact Ht|simpl; discriminate]|].
    split; [lia|]. exists (d ++ [report' id e])%list.
    split; [now rewrite Hrep, Hr, app_assoc|]. split.
    + apply Forall_app. split.
      * eapply Forall_impl; [|exact Hd]. simpl. intros; lia.
      * constructor; [|constructor]. destruct e; simpl; lia.
    + rewrite own_app, (own_none id (S id) d), own_report_of by (auto; lia).
      reflexivity.
  - destruct Hs as [[Hf [d [Hr Hd]]] Hk].
    split; [reflexivity|]. split; [split; [exact Ht|simpl; intros w' Hw'; now apply Hk]|].
    split; [exact Hf|]. exists d. split; [exact Hr|]. split.
    + eapply Forall_impl; [|exact Hd]. simpl. intros; lia.
    + unfold due_reports. simpl. apply (own_none id (S id)); [lia|exact Hd].
  - contradiction.
Qed.

(** *** Awaiting a freshly called coroutine *)

Lemma result_defined (f : coroutine_frame T) :
  frame_inv provider_at f -> result (mkTask (Some f)) <> undefined.
Proof.
  intros [_ Hinv]. unfold result, is_ready, done. simpl.
  destruct (state f); simpl; [discriminate|].
  destruct (result_slot (promise f)) as [[x|]|v]; simpl; congruence.
Qed.

Lemma await_call_spec (body : World -> Res T Empty_set) (w : World) :
  safe (S (frames_created w)) (allocate_frame w) (body (allocate_frame w)) ->
  match co_await show_pointer (fst (call' body w)) (snd (call' body w)) with
  | Some (returns _, w2) | Some (throws _, w2) =>
      extends (frames_created w) w w2 /\ frames_created w < frames_created w2
  | Some (undefined, _) | None => False
  end.
Proof.
  intros Hs. unfold coroutine_call.
  set (id := frames_created w) in *.
  set (p := initial_suspend provider_at id promise_default).
  pose proof (settle_spec id p _ _ (eq_refl : stackTrace p = trace' id) Hs) as H.
  destruct (settle show_pointer id p (body (allocate_frame w))) as [f w1].
  simpl in H. destruct H as [Hid [Hinv [Hfc [d [Hr [Hd _]]]]]]. simpl in Hfc, Hr.
  assert (extends id w w1) as Hext.
  { split; [fold id; lia|]. now exists d. }
  simpl fst. simpl snd. unfold co_await, await_ready, await_suspend, await_resume.
  unfold is_ready at 1. simpl handle. unfold done.
  destruct (state f) as [k0|] eqn:Hst.
  - unfold handle_resume. rewrite Hid.
    destruct Hinv as [Htr Hk]. rewrite Hst, Hid in Hk. rewrite Hid in Htr.
    assert (safe (S id) w1 (k0 w1)) as Hs1 by (apply Hk; lia).
    pose proof (settle_spec id (promise f) _ _ Htr Hs1) as H.
    destruct (settle show_pointer id (promise f) (k0 w1)) as [f' w2].
    simpl in H. destruct H as [_ [Hinv' [Hfc' [d' [Hr' [Hd' _]]]]]].
    assert (extends id w w2) as Hext'.
    { apply (extends_trans _ _ _ _ Hext). split; [lia|]. now exists d'. }
    pose proof (result_defined f' Hinv') as Hdef.
    destruct (result (mkTask (Some f'))); [split; [exact Hext'|lia]..|congruence].
  - pose proof (result_defined f Hinv) as Hdef.
    destruct (result (mkTask (Some f))); [split; [exact Hext|lia]..|congruence].
Qed.

(** Every run of a body stays defined and only reports for the frames it
    creates. *)
Lemma exec_safe {A : Type} (p : Prog T A) :
  forall n w, n <= frames_created w -> safe n w (exec' p w).
Proof.
  induction p as [A a|A v|A e|A s k IH|A k IH|A callee IHc k IHk
                 |A block IHb catches handler IHh k IHk];
    intros n w Hn; simpl.
  - apply extends_refl.
  - apply extends_refl.
  - apply extends_refl.
  - apply (safe_from n w (print s w)); [apply extends_print|]. now apply IH.
  - split; [apply extends_refl|]. intros w' Hw'. now apply IH.
  - pose proof (await_call_spec (exec' callee) w
                  (IHc (S (frames_created w)) (allocate_frame w) (le_n _))) as H.
    destruct (call' (exec' callee) w) as [t w1]. simpl in H.
    destruct (co_await show_pointer t w1) as [[[v|e|] w2]|]; try contradiction.
    + destruct H as [He Hlt].
      apply (safe_from n w w2); [now apply (extends_weaken (frames_created w))|].
      apply IHk. lia.
    + destruct H as [He Hlt]. simpl. now apply (extends_weaken (frames_created w)).
  - apply safe_bind; [intros; now apply IHk|exact Hn|].
    apply safe_catch; [intros; now apply IHh|exact Hn|]. now apply IHb.
Qed.

Lemma exec_prints {A : Type} (l : list string) (k : Prog T A) :
  forall w, exec' (prints l k) w = exec' k (printed l w).
Proof.
  induction l as [|s l IH]; intros w; simpl; [reflexivity|apply IH].
Qed.

Lemma printed_same (l : list string) :
  forall w, frames_created (printed l w) = frames_created w /\
            reports (printed l w) = reports w.
Proof.
  induction l as [|s l IH]; intros w; simpl; [now split|].
  destruct (IH (print s w)) as [H1 H2]. now rewrite H1, H2.
Qed.

(** A coroutine whose body throws on its first run: the frame it leaves and
    the call the sink gets. *)
Lemma call_throwing (body : World -> Res T Empty_set) (e : exn) (w w1 : World) :
  body (allocate_frame w) = Threw e w1 ->
  call' body w =
  (mkTask (Some (mkFrame (frames_created w)
                   (mkPromise (holds_exception_ptr (Some e))
                              (trace' (frames_created w)))
                   at_final_suspend)),
   firebase.RecordException (frames_created w)
     (fst (kind_and_message e)) (snd (kind_and_message e))
     (my_backtrace.toString show_pointer (trace' (frames_created w))) w1).
Proof.
  intros H. unfold coroutine_call. rewrite H. simpl.
  rewrite (final_suspend_failure _ _ e) by reflexivity. reflexivity.
Qed.

Lemma await_throwing {A : Type} (callee : Body T) (k : T -> Prog T A)
    (e : exn) (w w1 : World) :
  exec' callee (allocate_frame w) = Threw e w1 ->
  exec' (AwaitCall callee k) w =
  Threw e (firebase.RecordException (frames_created w)
             (fst (kind_and_message e)) (snd (kind_and_message e))
             (my_backtrace.toString show_pointer (trace' (frames_created w))) w1).
Proof.
  intros H. simpl. rewrite (call_throwing _ e w w1 H). reflexivity.
Qed.

(** *** Chains of tasks *)

(** C1: outer awaits middle, middle awaits inner, the inner body throws [e]
    and nobody catches.  The sink is called three times, for the inner, the
    middle and the outer frame in that order, each time with the text of the
    trace that frame captured when it started; the outer task ends ready and
    holding [e]. *)
Theorem three_level_chain_reports_per_level (e : exn)
    (pre1 pre2 pre3 : list string) (k1 k2 : T -> Body T) (w : World) :
  let id := frames_created w in
  let inner := prints pre3 (Throw e) in
  let middle := prints pre2 (AwaitCall inner k2) in
  let outer := prints pre1 (AwaitCall middle k1) in
  let s := create' outer w in
  reports (snd s) =
    (reports w ++ [report' (S (S id)) e; report' (S id) e; report' id e])%list /\
  length (own id (skipn (length (reports w)) (reports (snd s)))) = 1 /\
  length (own (S id) (skipn (length (reports w)) (reports (snd s)))) = 1 /\
  length (own (S (S id)) (skipn (length (reports w)) (reports (snd s)))) = 1 /\
  (forall i, stack_trace (report' i e) =
             my_backtrace.toString show_pointer
               (my_backtrace.current 128 (provider_at i))) /\
  is_ready (fst s) = true /\
  result (fst s) = throws e.
Proof.
  intros id inner middle outer s.
  set (wA := printed pre1 (allocate_frame w)).
  set (wB := printed pre2 (allocate_frame wA)).
  set (wC := printed pre3 (allocate_frame wB)).
  assert (frames_created wA = S id /\ reports wA = reports w) as [HfA HrA].
  { unfold wA. destruct (printed_same pre1 (allocate_frame w)) as [-> ->]. now split. }
  assert (frames_created wB = S (S id) /\ reports wB = reports w) as [HfB HrB].
  { unfold wB. destruct (printed_same pre2 (allocate_frame wA)) as [-> ->].
    simpl. now rewrite HfA, HrA. }
  assert (reports wC = reports w) as HrC.
  { unfold wC. destruct (printed_same pre3 (allocate_frame wB)) as [_ ->].
    simpl. exact HrB. }
  assert (exec' inner (allocate_frame wB) = Threw e wC) as Hin.
  { unfold inner. now rewrite exec_prints. }
  assert (exec' middle (allocate_frame wA) = Threw e
            (firebase.RecordException (S (S id)) (fst (kind_and_message e))
               (snd (kind_and_message e))
               (my_backtrace.toString show_pointer (trace' (S (S id)))) wC)) as Hmid.
  { unfold middle. rewrite exec_prints. fold wB.
    rewrite (await_throwing inner k2 e wB wC Hin). now rewrite HfB. }
  assert (exec' outer (allocate_frame w) = Threw e
            (firebase.RecordException (S id) (fst (kind_and_message e))
               (snd (kind_and_message e))
               (my_backtrace.toString show_pointer (trace' (S id)))
               (firebase.RecordException (S (S id)) (fst (kind_and_message e))
                  (snd (kind_and_message e))
                  (my_backtrace.toString show_pointer (trace' (S (S id)))) wC)))
    as Hout.
  { unfold outer. rewrite exec_prints. fold wA.
    rewrite (await_throwing middle k1 e wA _ Hmid). now rewrite HfA. }
  assert (reports (snd s) =
    (reports w ++ [report' (S (S id)) e; report' (S id) e; report' id e])%list) as Hrep.
  { unfold s, create. rewrite (call_throwing _ e w _ Hout). simpl snd. fold id.
    rewrite (proj1 (RecordException_report id e _)).
    rewrite (proj1 (RecordException_report (S id) e _)).
    rewrite (proj1 (RecordException_report (S (S id)) e _)).
    rewrite HrC. now rewrite <- !app_assoc. }
  split; [exact Hrep|].
  rewrite Hrep, skipn_app, Nat.sub_diag, skipn_all. simpl app. simpl skipn.
  assert (forall i j, length (own i [report' j e]) = if Nat.eqb j i then 1 else 0)
    as Hone.
  { intros i j. unfold own. simpl. destruct e; simpl; now destruct (Nat.eqb j i). }
  assert (forall i a b c,
            own i [a; b; c] = (own i [a] ++ own i [b] ++ own i [c])%list) as Hsplit.
  { intros i a b c. now rewrite <- !own_app. }
  repeat split.
  - rewrite Hsplit, !length_app, !Hone.
    rewrite Nat.eqb_refl.
    destruct (Nat.eqb_spec (S (S id)) id); [lia|].
    destruct (Nat.eqb_spec (S id) id); [lia|]. reflexivity.
  - rewrite Hsplit, !length_app, !Hone.
    rewrite Nat.eqb_refl.
    destruct (Nat.eqb_spec (S (S id)) (S id)); [lia|].
    destruct (Nat.eqb_spec id (S id)); [lia|]. reflexivity.
  - rewrite Hsplit, !length_app, !Hone.
    rewrite Nat.eqb_refl.
    destruct (Nat.eqb_spec (S id) (S (S id))); [lia|].
    destruct (Nat.eqb_spec id (S (S id))); [lia|]. reflexivity.
  - intros i. now destruct e.
  - unfold s, create. now rewrite (call_throwing _ e w _ Hout).
  - unfold s, create. now rewrite (call_throwing _ e w _ Hout).
Qed.

(** *** Bodies without suspension points *)

(** A body that never awaits runs through: it ends a block, returns or
    throws, and touches nothing but [std::cout]. *)
Lemma exec_never_awaits {A : Type} (p : Prog T A) :
  never_awaits p ->
  forall w,
    match exec' p w with
    | Done _ w' | Returned _ w' | Threw _ w' =>
        frames_created w' = frames_created w /\ reports w' = reports w
    | Paused _ _ | Undefined _ => False
    end.
Proof.
  induction p as [A a|A v|A e|A s k IH|A k IH|A callee IHc k IHk
                 |A block IHb catches handler IHh k IHk];
    intros Hna w; simpl in *; try (now split); try contradiction.
  - now apply (IH Hna (print s w)).
  - destruct Hna as [Hb [Hh Hk]].
    specialize (IHb Hb w).
    destruct (exec' block w) as [a w1|v w1|e w1|r w1|w1]; simpl;
      try contradiction; try exact IHb.
    + specialize (IHk Hk w1).
      destruct (exec' k w1); try contradiction; destruct IHb, IHk; split; congruence.
    + destruct (catches e); simpl; [|exact IHb].
      specialize (IHh e (Hh e) w1).
      destruct (exec' (handler e) w1) as [a w2|v w2|e2 w2|r w2|w2]; simpl;
        try contradiction; try (destruct IHb, IHh; split; congruence).
      specialize (IHk Hk w2).
      destruct (exec' k w2); try contradiction;
        destruct IHb, IHh, IHk; split; congruence.
Qed.

(** C7: a task whose body never awaits is ready as soon as [create] comes
    back, and when that body returned [v], [result] gives [v]; the sink got
    nothing. *)
Theorem eager_task_is_ready_with_value (body : Body T) (w : World) :
  never_awaits body ->
  is_ready (fst (create' body w)) = true /\
  forall v w', exec' body (allocate_frame w) = Returned v w' ->
    result (fst (create' body w)) = returns v /\
    snd (create' body w) = w' /\
    reports (snd (create' body w)) = reports w.
Proof.
  intros Hna. pose proof (exec_never_awaits body Hna (allocate_frame w)) as H.
  unfold create, coroutine_call.
  destruct (exec' body (allocate_frame w)) as [a w1|v w1|e w1|r w1|w1];
    try contradiction; try destruct a; simpl.
  - split; [reflexivity|]. intros v' w' Heq. injection Heq as <- <-.
    repeat split. now destruct H.
  - split; [reflexivity|]. intros v' w' Heq. discriminate Heq.
Qed.

(** *** One task, from creation on *)

Lemma due_reports_suspended (f : coroutine_frame T) :
  done f = false -> due_reports show_pointer provider_at f = [].
Proof. unfold done, due_reports. now destruct (state f). Qed.

Lemma create_inv (body : Body T) (w : World) :
  task_inv show_pointer provider_at (frames_created w) w (create' body w).
Proof.
  unfold create, coroutine_call.
  set (id := frames_created w).
  set (p := initial_suspend provider_at id promise_default).
  pose proof (settle_spec id p (exec' body (allocate_frame w)) (allocate_frame w)
                (eq_refl : stackTrace p = trace' id)
                (exec_safe body (S id) (allocate_frame w) (le_n _))) as H.
  destruct (settle show_pointer id p (exec' body (allocate_frame w))) as [f w1].
  simpl in H. destruct H as [Hid [Hinv [Hfc [d [Hr [_ Hown]]]]]].
  exists f, d. simpl fst. simpl snd.
  split; [reflexivity|]. split; [exact Hid|]. split; [exact Hinv|].
  split; [simpl in Hfc; subst id; lia|]. split; [exact Hr|exact Hown].
Qed.

Lemma step_inv (id : nat) (w0 : World) (op : driver_op) (s : TracedTask T * World) :
  task_inv show_pointer provider_at id w0 s ->
  task_inv show_pointer provider_at id w0 (step_op show_pointer op s) /\
  exists d',
    reports (snd (step_op show_pointer op s)) = (reports (snd s) ++ d')%list /\
    (own id d' <> [] ->
     is_ready (fst s) = false /\ is_ready (fst (step_op show_pointer op s)) = true).
Proof.
  intros Hinv.
  assert (forall s', s' = s \/ (handle (fst s') = handle (fst s) /\ snd s' = snd s) ->
            task_inv show_pointer provider_at id w0 s' /\
            exists d', reports (snd s') = (reports (snd s) ++ d')%list /\
              (own id d' <> [] -> is_ready (fst s) = false /\ is_ready (fst s') = true))
    as Hsame.
  { intros s' Hs'. split.
    - destruct Hs' as [->|[Hh Hw]]; [exact Hinv|].
      destruct Hinv as [f [d H]]. exists f, d. now rewrite Hh, Hw.
    - exists []. split.
      + destruct Hs' as [->|[_ ->]]; now rewrite app_nil_r.
      + intros Hne. now contradiction Hne. }
  destruct op; simpl step_op; try (apply Hsame; now left).
  - destruct s as [t w1]. simpl fst in *. simpl snd in *.
    destruct Hinv as [f [d [Hh [Hid [Hfi [Hfc [Hr Hown]]]]]]]. simpl in Hh, Hfc, Hr.
    unfold run. rewrite Hh.
    destruct (state f) as [k|] eqn:Hst.
    + unfold handle_resume. rewrite Hid.
      pose proof Hfi as [Htr Hk]. rewrite Hst, Hid in Hk. rewrite Hid in Htr.
      pose proof (settle_spec id (promise f) (k w1) w1 Htr (Hk w1 Hfc)) as H.
      destruct (settle show_pointer id (promise f) (k w1)) as [f' w2].
      simpl in H. destruct H as [Hid' [Hinv' [Hfc' [d' [Hr' [_ Hown']]]]]].
      assert (done f = false) as Hnd by (unfold done; now rewrite Hst).
      split.
      * exists f', (d ++ d')%list. simpl fst. simpl snd.
        split; [reflexivity|]. split; [exact Hid'|]. split; [exact Hinv'|].
        split; [lia|]. split.
        -- now rewrite Hr', Hr, app_assoc.
        -- rewrite own_app, Hown, Hown', (due_reports_suspended f Hnd). reflexivity.
      * exists d'. simpl. split; [exact Hr'|]. intros Hne.
        split; [unfold is_ready; now rewrite Hh|].
        unfold is_ready. simpl. rewrite Hown' in Hne.
        unfold due_reports in Hne. unfold done. now destruct (state f').
    + split.
      * exists f, d. simpl fst. simpl snd.
        split; [exact Hh|]. split; [exact Hid|]. split; [exact Hfi|].
        split; [exact Hfc|]. split; [exact Hr|exact Hown].
      * exists []. simpl. split; [now rewrite app_nil_r|].
        intros Hne. now contradiction Hne.
  - apply Hsame. right. destruct s as [t w1]. now split.
Qed.

Lemma lifetime_inv (id : nat) (w0 : World) (ops : list driver_op) :
  forall s : TracedTask T * World,
    task_inv show_pointer provider_at id w0 s ->
    task_inv show_pointer provider_at id w0 (lifetime show_pointer ops s).
Proof.
  induction ops as [|op ops IH]; intros s Hs; simpl; [exact Hs|].
  apply IH. now apply step_inv.
Qed.

(** C2: at any point of the life of a task (after [create] and any sequence
    of [run], [is_ready], [result] and moves), the sink got at most one call
    for it; it got one exactly when the task is finished and holds a failure
    of its body, that call carries the trace captured at creation, which the
    promise still holds, and a call for the task is only ever made by the
    operation that takes it from not ready to ready. *)
Theorem reporter_at_most_once_per_task (body : Body T) (w : World)
    (ops : list driver_op) :
  let id := frames_created w in
  let s := lifetime show_pointer ops (create' body w) in
  exists f d,
    handle (fst s) = Some f /\ frame_id f = id /\
    stackTrace (promise f) = my_backtrace.current 128 (provider_at id) /\
    reports (snd s) = (reports w ++ d)%list /\
    length (own id d) <= 1 /\
    own id d = match state f, result_slot (promise f) with
               | at_final_suspend, holds_exception_ptr (Some e) => [report' id e]
               | _, _ => []
               end /\
    (forall r, In r (own id d) ->
       is_ready (fst s) = true /\
       exists e, result (fst s) = throws e /\ r = report' id e /\
         stack_trace r = my_backtrace.toString show_pointer (stackTrace (promise f))) /\
    (forall op, exists d',
       reports (snd (step_op show_pointer op s)) = (reports (snd s) ++ d')%list /\
       (own id d' <> [] ->
        is_ready (fst s) = false /\
        is_ready (fst (step_op show_pointer op s)) = true)).
Proof.
  intros id s.
  pose proof (lifetime_inv id w ops _ (create_inv body w)) as Hinv. fold s in Hinv.
  pose proof Hinv as [f [d [Hh [Hid [[Htr Hst] [Hfc [Hr Hown]]]]]]].
  exists f, d. rewrite Hid in Htr.
  assert (own id d = match state f, result_slot (promise f) with
               | at_final_suspend, holds_exception_ptr (Some e) => [report' id e]
               | _, _ => []
               end) as Hdue.
  { rewrite Hown. unfold due_reports. now rewrite Hid. }
  repeat split; auto.
  - rewrite Hdue. destruct (state f); [simpl; lia|].
    destruct (result_slot (promise f)) as [[e|]|v]; simpl; lia.
  - rewrite Hdue in H. unfold is_ready, done. rewrite Hh.
    destruct (state f); [contradiction|reflexivity].
  - rewrite Hdue in H. unfold result, is_ready, done. rewrite Hh.
    destruct (state f); [contradiction|].
    destruct (result_slot (promise f)) as [[e|]|v]; try contradiction.
    destruct H as [<-|[]]. exists e. simpl. rewrite Htr.
    repeat split. now destruct e.
  - intros op. exact (proj2 (step_inv id w op s Hinv)).
Qed.

End TaskProperties.

(** ** The tasks of main.cpp, run *)

(** [topLevelTask()] as [main] calls it: three reports, innermost first, each
    with the trace of its own frame. *)
Lemma three_level_chain_reports_per_level_witness :
  let s := create Sample.show_pointer Sample.providers topLevelTask Sample.world0 in
  reports (snd s) =
    map (fun i => report_of Sample.show_pointer Sample.providers i
                    (runtime_error "Exception from third level task")) [2; 1; 0] /\
  result (fst s) = throws (runtime_error "Exception from third level task").
Proof.
  pose proof (three_level_chain_reports_per_level Z Sample.show_pointer
                Sample.providers
                (runtime_error "Exception from third level task")
                ["Top level task - Calling second level"]
                [" Second level task - Calling third level"]
                ["  Third level task - Throwing exception"]
                (fun result => Print ("Result: " ++ show_int result) (CoReturn 1%Z))
                (fun result => CoReturn (result * 2)%Z)
                Sample.world0) as H.
  split; [exact (proj1 H)|].
  exact (proj2 (proj2 (proj2 (proj2 (proj2 (proj2 H)))))).
Defined.

(** When the unfinished task is awaited, the "not completed" error is thrown
    inside the awaiting body; that body does not catch it here, so it ends
    the awaiting task like any other failure of its body. *)
Remark awaiting_unfinished_task :
  let s := create Sample.show_pointer Sample.providers
             (AwaitCall (Suspend (Suspend (CoReturn 5%Z))) (fun v => CoReturn v))
             Sample.world0 in
  result (fst s) = throws not_completed /\
  reports (snd s) = [report_of Sample.show_pointer Sample.providers 0 not_completed].
Proof. split; reflexivity. Qed.

(** A body that catches the failure of the task it awaited and then throws a
    failure of its own ends with that new failure, and it is the new one the
    sink gets for the outer frame. *)
Remark caught_then_new_failure :
  let s := create Sample.show_pointer Sample.providers
             (TryCatch (AwaitCall thirdLevelTask (fun _ => Pure tt))
                       is_std_exception
                       (fun _ => Throw (runtime_error "gave up"))
                       (CoReturn 1%Z))
             Sample.world0 in
  result (fst s) = throws (runtime_error "gave up") /\
  reports (snd s) =
    [report_of Sample.show_pointer Sample.providers 1
       (runtime_error "Exception from third level task");
     report_of Sample.show_pointer Sample.providers 0 (runtime_error "gave up")].
Proof. split; reflexivity. Qed.


Lemma eager_task_is_ready_with_value_witness :
  never_awaits (Print "working" (CoReturn 7%Z) : Body Z) /\
  is_ready (fst (create Sample.show_pointer Sample.providers
                   (Print "working" (CoReturn 7%Z)) Sample.world0)) = true /\
  result (fst (create Sample.show_pointer Sample.providers
                 (Print "working" (CoReturn 7%Z)) Sample.world0)) = returns 7%Z.
Proof.
  pose proof (eager_task_is_ready_with_value Z Sample.show_pointer Sample.providers
                (Print "working" (CoReturn 7%Z)) Sample.world0 I) as H.
  split; [exact I|]. split; [exact (proj1 H)|].
  exact (proj1 (proj2 H 7%Z _ eq_refl)).
Defined.


Lemma reporter_at_most_once_per_task_witness :
  let s := lifetime Sample.show_pointer [do_is_ready; do_run; do_result; do_run]
             (create Sample.show_pointer Sample.providers
                (Suspend (Throw (runtime_error "late failure")) : Body Z)
                Sample.world0) in
  exists d, reports (snd s) = d /\ length (own 0 d) <= 1.
Proof.
  destruct (reporter_at_most_once_per_task Z Sample.show_pointer Sample.providers
              (Suspend (Throw (runtime_error "late failure")))
              Sample.world0 [do_is_ready; do_run; do_result; do_run])
    as [f [d [_ [_ [_ [Hr [Hlen _]]]]]]].
  exists d. split; [exact Hr|exact Hlen].
Defined.

Lemma report_raises_iff_sink_raises_witness :
  reportExceptionToFirebase Sample.show_pointer (sink 0)
    (Some (runtime_error "boom")) (my_backtrace.current 128 Sample.provider)
    Sample.world0
  = normal (firebase.RecordException 0 "St13runtime_error" "boom"
              (my_backtrace.toString Sample.show_pointer
                 (my_backtrace.current 128 Sample.provider))
              Sample.world0).
Proof.
  exact (proj2 (proj2 (report_raises_iff_sink_raises unit Sample.broken_sink
                         Sample.show_pointer (Some (runtime_error "boom"))
                         (my_backtrace.current 128 Sample.provider) tt))
               0 Sample.world0).
Defined.

(** * Further properties of the task *)

Section TaskBehaviour.

Variable T : Type.
Variable show_pointer : N -> string.
Variable provider_at : nat -> Provider.

Local Abbreviation exec' := (exec show_pointer provider_at).
Local Abbreviation create' := (create show_pointer provider_at).
Local Abbreviation report' := (report_of show_pointer provider_at).

Lemma result_by_handle (t t' : TracedTask T) :
  handle t = handle t' -> result t = result t' /\ is_ready t = is_ready t'.
Proof. destruct t, t'. simpl. intros ->. now split. Qed.

(** X1: a task whose body throws on its first run is ready when [create] comes
    back, [result] throws the failure again, and the sink got one call for
    the task, after whatever the body itself caused; a body that never awaits
    causes no call, so that one call is all there is. *)
Theorem failing_body_is_reported_once (body : Body T) (e : exn) (w w1 : World) :
  exec' body (allocate_frame w) = Threw e w1 ->
  let s := create' body w in
  is_ready (fst s) = true /\
  result (fst s) = throws e /\
  reports (snd s) = (reports w1 ++ [report' (frames_created w) e])%list /\
  frames_created (snd s) = frames_created w1 /\
  (never_awaits body ->
   reports (snd s) = (reports w ++ [report' (frames_created w) e])%list).
Proof.
  intros Hex s. unfold s, create.
  rewrite (call_throwing T show_pointer provider_at _ e w w1 Hex). simpl fst. simpl snd.
  destruct (RecordException_report show_pointer provider_at (frames_created w) e w1)
    as [Hr Hf].
  repeat split; auto.
  intros Hna.
  pose proof (exec_never_awaits T show_pointer provider_at body Hna (allocate_frame w))
    as H.
  rewrite Hex in H. destruct H as [_ H]. simpl in H. now rewrite Hr, H.
Qed.

(** X2: once a task is ready nothing an owner does changes it: [run] is a no-op,
    the stored outcome stays, the body is not run again and the sink gets
    nothing more. *)
Theorem ready_task_is_final (t : TracedTask T) (w : World) (ops : list driver_op) :
  is_ready t = true ->
  snd (lifetime show_pointer ops (t, w)) = w /\
  handle (fst (lifetime show_pointer ops (t, w))) = handle t /\
  result (fst (lifetime show_pointer ops (t, w))) = result t /\
  is_ready (fst (lifetime show_pointer ops (t, w))) = true.
Proof.
  intros Hready.
  assert (snd (lifetime show_pointer ops (t, w)) = w /\
          handle (fst (lifetime show_pointer ops (t, w))) = handle t) as [Hw Hh].
  { revert t Hready. induction ops as [|op ops IH]; intros t Hready; [now split|].
    simpl lifetime.
    assert (snd (step_op show_pointer op (t, w)) = w /\
            handle (fst (step_op show_pointer op (t, w))) = handle t) as [H1 H2].
    { destruct op; simpl; try (now split).
      unfold run. unfold is_ready, done in Hready.
      destruct (handle t) as [f|] eqn:Hf; [|discriminate Hready].
      destruct (state f); [discriminate Hready|]. simpl. now split. }
    destruct (step_op show_pointer op (t, w)) as [t1 w1]. simpl in H1, H2. subst w1.
    destruct (IH t1) as [IH1 IH2].
    - now rewrite (proj2 (result_by_handle t1 t H2)).
    - split; [exact IH1|congruence]. }
  destruct (result_by_handle _ t Hh) as [Hr Hi].
  repeat split; auto. now rewrite Hi.
Qed.

(** X3: awaiting a task is undefined exactly when its handle is null (a
    default-constructed or moved-from task), for [await_suspend] resumes the
    handle without a test; a task that holds a frame, finished or suspended,
    is awaited safely.  Every coroutine call gives back a task that holds a
    frame, so a body whose awaits are all on tasks just returned by a call
    (the only await [Prog] has, and the only one the bodies of the file make)
    never gets there, and after [create] and whatever the owner does,
    [result] never rethrows a null exception pointer. *)
Theorem await_undefined_only_on_null_handle (body : Body T) (w : World)
    (ops : list driver_op) :
  (forall (t : TracedTask T) w0,
     co_await show_pointer t w0 = None <-> handle t = None) /\
  (forall (t : TracedTask T) w0,
     co_await show_pointer (snd (move_construct t)) w0 = None) /\
  handle (fst (create' body w)) <> None /\
  (forall (A : Type) (p : Prog T A) w0 w', exec' p w0 <> Undefined w') /\
  result (fst (lifetime show_pointer ops (create' body w))) <> undefined.
Proof.
  split; [|split; [|split; [|split]]].
  - intros t w0. unfold co_await, await_ready, is_ready, await_suspend, done.
    destruct (handle t) as [h|]; [|now split].
    destruct (state h) as [k|].
    + destruct (handle_resume show_pointer h k w0). split; discriminate.
    + split; discriminate.
  - reflexivity.
  - unfold create, coroutine_call.
    destruct (settle show_pointer (frames_created w) _ _). discriminate.
  - intros A p w0 w' Heq.
    pose proof (exec_safe T show_pointer provider_at p 0 w0 (Nat.le_0_l _)) as H.
    rewrite Heq in H. exact H.
  - pose proof (lifetime_inv T show_pointer provider_at (frames_created w) w ops _
                  (create_inv T show_pointer provider_at body w)) as Hinv.
    destruct Hinv as [f [d [Hh [_ [Hfi _]]]]].
    rewrite (proj1 (result_by_handle _ (mkTask (Some f)) Hh)).
    now apply (result_defined T provider_at).
Qed.

(** X4: a body that first suspends does nothing when created: the task is not
    ready and the world only has the new frame.  The first [run] then does
    all that creating the rest of the body directly would have done. *)
Theorem suspended_body_runs_on_resume (k : Body T) (w : World) :
  let s := create' (Suspend k) w in
  is_ready (fst s) = false /\
  snd s = allocate_frame w /\
  run show_pointer (fst s) (snd s) = create' k w.
Proof.
  unfold create, coroutine_call, run, handle_resume. simpl.
  repeat split.
Qed.

(** X5: an await resumes the awaited task once and goes on at once: when the
    awaited body is still suspended after that, the await throws the "not
    completed" error into the awaiting body, and the rest of the awaited body
    never runs. *)
Theorem await_resumes_only_once {A : Type} (callee : Body T) (k : T -> Prog T A)
    (k1 k2 : World -> Res T Empty_set) (w w1 w2 : World) :
  exec' callee (allocate_frame w) = Paused k1 w1 ->
  k1 w1 = Paused k2 w2 ->
  exec' (AwaitCall callee k) w = Threw not_completed w2.
Proof.
  intros H1 H2. simpl.
  unfold coroutine_call, co_await, await_ready, await_suspend, handle_resume.
  rewrite H1. simpl. rewrite H2. reflexivity.
Qed.

(** X6: an await of a task whose body returns [v], at once or after one
    suspension, goes on with [v] in the world the awaited body left; the sink
    gets nothing for the awaited task. *)
Theorem await_passes_value {A : Type} (callee : Body T) (k : T -> Prog T A)
    (v : T) (w w1 : World) :
  exec' callee (allocate_frame w) = Returned v w1 ->
  exec' (AwaitCall callee k) w = exec' (k v) w1 /\
  exec' (AwaitCall (Suspend callee) k) w = exec' (k v) w1.
Proof.
  intros H. split; simpl; unfold coroutine_call, co_await, await_ready,
    await_suspend, handle_resume; simpl; rewrite H; reflexivity.
Qed.

Lemma step_extends (id : nat) (w0 : World) (op : driver_op)
    (s : TracedTask T * World) :
  task_inv show_pointer provider_at id w0 s ->
  extends id (snd s) (snd (step_op show_pointer op s)).
Proof.
  intros [f [d [Hh [Hid [Hfi [Hfc _]]]]]].
  destruct op; simpl; try apply extends_refl.
  unfold run. rewrite Hh. destruct (state f) as [k|] eqn:Hst; [|apply extends_refl].
  unfold handle_resume. rewrite Hid.
  destruct Hfi as [Htr Hk]. rewrite Hst, Hid in Hk. rewrite Hid in Htr.
  pose proof (settle_spec T show_pointer provider_at id (promise f) (k (snd s))
                (snd s) Htr (Hk _ Hfc)) as H.
  destruct (settle show_pointer id (promise f) (k (snd s))) as [f' w2].
  simpl in H. destruct H as [_ [_ [Hfc' [d' [Hr' [Hd' _]]]]]].
  simpl. split; [exact Hfc'|]. now exists d'.
Qed.

Lemma lifetime_extends (id : nat) (w0 : World) (ops : list driver_op) :
  forall s : TracedTask T * World,
    task_inv show_pointer provider_at id w0 s ->
    extends id (snd s) (snd (lifetime show_pointer ops s)).
Proof.
  induction ops as [|op ops IH]; intros s Hs; simpl; [apply extends_refl|].
  apply (extends_trans id _ (snd (step_op show_pointer op s))).
  - now apply (step_extends id w0).
  - apply IH. now apply (step_inv T show_pointer provider_at).
Qed.

(** X7: the sink log only grows, and a task only causes calls for its own frame
    and the frames created after it: whatever was logged before [create]
    stays in front, and every call added during the life of the task is
    tagged with the number of its frame or a later one. *)
Theorem task_reports_only_for_new_frames (body : Body T) (w : World)
    (ops : list driver_op) :
  let s := lifetime show_pointer ops (create' body w) in
  frames_created w < frames_created (snd s) /\
  exists d, reports (snd s) = (reports w ++ d)%list /\
            Forall (fun r => frames_created w <= reporter r) d.
Proof.
  intros s.
  pose proof (create_inv T show_pointer provider_at body w) as Hc.
  pose proof (lifetime_inv T show_pointer provider_at _ w ops _ Hc) as Hl.
  pose proof (lifetime_extends _ w ops _ Hc) as He. fold s in Hl, He.
  destruct Hl as [f [d [_ [_ [_ [Hfc [Hr _]]]]]]].
  split; [exact Hfc|].
  assert (extends (frames_created w) w (snd (create' body w))) as H0.
  { unfold create, coroutine_call.
    pose proof (settle_spec T show_pointer provider_at (frames_created w)
                  (initial_suspend provider_at (frames_created w) promise_default)
                  (exec' body (allocate_frame w)) (allocate_frame w) eq_refl
                  (exec_safe T show_pointer provider_at body _ (allocate_frame w)
                     (le_n _))) as H.
    destruct (settle show_pointer (frames_created w) _ (exec' body (allocate_frame w)))
      as [f0 w1].
    simpl in H. destruct H as [_ [_ [Hf0 [d0 [Hr0 [Hd0 _]]]]]].
    simpl. split; [lia|]. now exists d0. }
  destruct (extends_trans _ _ _ _ H0 He) as [_ Hd]. exact Hd.
Qed.

(** X8: a clause that does not accept the failure lets it through: the awaiting
    task ends with it and the sink gets a call for the awaited frame, then one
    for the awaiting frame. *)
Theorem unmatched_clause_lets_failure_through
    (pre : list string) (inner : Body T) (kb : T -> Prog T unit)
    (catches : exn -> bool) (handler : exn -> Prog T unit) (k : Body T)
    (e : exn) (w w1 : World) :
  let id := frames_created w in
  let outer := prints pre (TryCatch (AwaitCall inner kb) catches handler k) in
  let s := create' outer w in
  exec' inner (allocate_frame (printed pre (allocate_frame w))) = Threw e w1 ->
  catches e = false ->
  is_ready (fst s) = true /\
  result (fst s) = throws e /\
  reports (snd s) = (reports w1 ++ [report' (S id) e; report' id e])%list.
Proof.
  intros id outer s Hin Hcatch.
  remember (printed pre (allocate_frame w)) as wA eqn:HwA.
  assert (frames_created wA = S id) as HfA.
  { rewrite HwA. now destruct (printed_same pre (allocate_frame w)) as [-> _]. }
  assert (exec' outer (allocate_frame w) =
          Threw e (firebase.RecordException (S id) (fst (kind_and_message e))
                     (snd (kind_and_message e))
                     (my_backtrace.toString show_pointer
                        (trace_of provider_at (S id))) w1)) as Hout.
  { unfold outer. rewrite (exec_prints T show_pointer provider_at), <- HwA. simpl exec.
    pose proof (await_throwing T show_pointer provider_at inner kb e wA w1 Hin) as Haw.
    simpl exec in Haw. rewrite Haw, HfA. simpl. now rewrite Hcatch. }
  unfold s, create.
  rewrite (call_throwing T show_pointer provider_at _ e w _ Hout). simpl fst. simpl snd.
  split; [reflexivity|]. split; [reflexivity|].
  rewrite (proj1 (RecordException_report show_pointer provider_at id e _)).
  rewrite (proj1 (RecordException_report show_pointer provider_at (S id) e _)).
  now rewrite <- app_assoc.
Qed.

End TaskBehaviour.

(** * Further properties of capture and formatting *)

Lemma in_firstn_in {A : Type} (n : nat) (l : list A) (a : A) :
  In a (firstn n l) -> In a l.
Proof.
  intros H. rewrite <- (firstn_skipn n l). apply in_or_app. now left.
Qed.

Lemma in_skipn_in {A : Type} (n : nat) (l : list A) (a : A) :
  In a (skipn n l) -> In a l.
Proof.
  intros H. rewrite <- (firstn_skipn n l). apply in_or_app. now right.
Qed.

(** ** All-or-nothing lists *)

Lemma collect_map {A B C : Type} (f : B -> option C) (g : A -> B) (l : list A) :
  part_002.collect f (map g l) = part_002.collect (fun a => f (g a)) l.
Proof.
  induction l as [|a l IH]; simpl; [reflexivity|]. now rewrite IH.
Qed.

Lemma collect_ext_in {A B : Type} (f g : A -> option B) (l : list A) :
  (forall a, In a l -> f a = g a) ->
  part_002.collect f l = part_002.collect g l.
Proof.
  induction l as [|a l IH]; intros H; simpl; [reflexivity|].
  rewrite (H a) by now left. rewrite IH; [reflexivity|].
  intros b Hb. apply H. now right.
Qed.

Lemma collect_Some {A B : Type} (f : A -> option B) (g : A -> B) (l : list A) :
  (forall a, In a l -> f a = Some (g a)) ->
  part_002.collect f l = Some (map g l).
Proof.
  induction l as [|a l IH]; intros H; simpl; [reflexivity|].
  rewrite (H a) by now left. rewrite IH; [reflexivity|].
  intros b Hb. apply H. now right.
Qed.

Lemma collect_None {A B : Type} (f : A -> option B) (l : list A) :
  part_002.collect f l = None <-> exists a, In a l /\ f a = None.
Proof.
  induction l as [|a l IH]; simpl.
  - split; [discriminate|]. intros [a [[] _]].
  - destruct (f a) as [b|] eqn:Hfa.
    + destruct (part_002.collect f l) as [bs|] eqn:Hc.
      * split; [discriminate|]. intros [x [[<-|Hx] Hfx]]; [congruence|].
        assert (Some bs = None) as Habs by (apply IH; now exists x).
        discriminate Habs.
      * split; [|reflexivity]. intros _.
        destruct (proj1 IH eq_refl) as [x [Hx Hfx]]. exists x. split; [now right|exact Hfx].
    + split; [|reflexivity]. intros _. exists a. split; [now left|exact Hfa].
Qed.

Lemma collect_related {A B C : Type} (f : A -> option B) (p : B -> C) (q : A -> C)
    (l : list A) :
  (forall a b, f a = Some b -> p b = q a) ->
  forall bs, part_002.collect f l = Some bs ->
             length bs = length l /\ map p bs = map q l.
Proof.
  intros Hrel. induction l as [|a l IH]; simpl; intros bs Hc.
  - injection Hc as <-. now split.
  - destruct (f a) as [b|] eqn:Hfa; [|discriminate Hc].
    destruct (part_002.collect f l) as [bs'|]; [|discriminate Hc].
    injection Hc as <-. destruct (IH bs' eq_refl) as [Hl Hm].
    simpl. now rewrite Hl, Hm, (Hrel a b Hfa).
Qed.

(** ** The older capture routine *)

Lemma fold_capture_step (P : Provider) (cs : list N) (syms : list (option string))
    (idx : list nat) :
  forall acc,
    fold_left (part_002.capture_step P cs syms) idx (Some acc) =
    match part_002.collect
            (fun i =>
               match part_002.frame_symbol P (nth i cs 0%N) (nth i syms None) with
               | Some s =>
                   Some (part_002.mkStackFrame (nth i cs 0%N) s
                           (part_002.frame_fileName P (nth i cs 0%N))
                           (part_002.frame_offset P (nth i cs 0%N)) 0%Z)
               | None => None
               end) idx with
    | Some l => Some (acc ++ l)%list
    | None => None
    end.
Proof.
  assert (forall l, fold_left (part_002.capture_step P cs syms) l None = None) as Hnone.
  { induction l as [|i l IH]; [reflexivity|exact IH]. }
  induction idx as [|i idx IH]; intros acc; simpl.
  - now rewrite app_nil_r.
  - destruct (part_002.frame_symbol P (nth i cs 0%N) (nth i syms None)) as [s|].
    + rewrite IH. destruct (part_002.collect _ idx); [|reflexivity].
      now rewrite <- app_assoc.
    + apply Hnone.
Qed.

Lemma CaptureStackTrace_with_symbols (P : Provider) :
  symbols_ok P = true ->
  part_002.CaptureStackTrace P =
  part_002.collect (part_002.resolve_frame P)
    (skipn 2 (firstn part_002.kMaxStackDepth (call_stack P))).
Proof.
  intros Hok. unfold part_002.CaptureStackTrace, backtrace, backtrace_symbols.
  rewrite Hok. set (cs := firstn part_002.kMaxStackDepth (call_stack P)).
  destruct (Z.leb_spec (Z.of_nat (length cs)) 0) as [Hle|Hgt].
  - assert (length cs = 0) as H0 by lia.
    destruct cs; [reflexivity|discriminate H0].
  - rewrite Nat2Z.id, fold_capture_step.
    rewrite <- (skipn_as_indices 0%N cs 2), collect_map.
    rewrite (collect_ext_in _ (fun i => part_002.resolve_frame P (nth i cs 0%N))).
    + now destruct (part_002.collect _ _).
    + intros i Hi. apply in_seq in Hi. unfold part_002.resolve_frame.
      rewrite (nth_indep _ None (symbol_text P 0%N)) by (rewrite length_map; lia).
      now rewrite map_nth.
Qed.

Lemma CaptureStackTrace_without_symbols (P : Provider) :
  symbols_ok P = false -> part_002.CaptureStackTrace P = Some [].
Proof.
  intros Hno. unfold part_002.CaptureStackTrace, backtrace_symbols. rewrite Hno.
  now destruct (_ <=? 0)%Z.
Qed.

Lemma resolve_frame_None (P : Provider) (a : N) :
  part_002.resolve_frame P a = None <->
  part_002.frame_symbol P a (symbol_text P a) = None.
Proof.
  unfold part_002.resolve_frame.
  destruct (part_002.frame_symbol P a (symbol_text P a)); split; congruence.
Qed.

Lemma frame_symbol_of_text (P : Provider) (a : N) :
  symbol_text P a <> None ->
  part_002.frame_symbol P a (symbol_text P a) <> None.
Proof.
  intros H. unfold part_002.frame_symbol.
  destruct (dladdr P a) as [info|]; [|exact H].
  destruct (dli_sname info); [|exact H].
  now destruct (demangled _).
Qed.

(** A table without null entry keeps the capture defined. *)
Lemma complete_table_defined (P : Provider) :
  part_002.table_complete P -> part_002.CaptureStackTrace P <> None.
Proof.
  intros Hc. destruct (symbols_ok P) eqn:Hok.
  - rewrite (CaptureStackTrace_with_symbols _ Hok). intros Hn.
    apply collect_None in Hn. destruct Hn as [a [_ Ha]].
    apply resolve_frame_None in Ha.
    exact (frame_symbol_of_text P a (Hc a) Ha).
  - now rewrite (CaptureStackTrace_without_symbols _ Hok).
Qed.

Lemma CaptureStackTrace_length (P : Provider) (st : list part_002.StackFrame) :
  part_002.CaptureStackTrace P = Some st ->
  length st <= length (firstn 128 (call_stack P)) - 2.
Proof.
  intros Hst. destruct (symbols_ok P) eqn:Hok.
  - rewrite (CaptureStackTrace_with_symbols _ Hok) in Hst.
    destruct (collect_related (part_002.resolve_frame P) (fun _ => tt) (fun _ => tt)
                _ (fun _ _ _ => eq_refl) st Hst) as [Hl _].
    rewrite Hl, length_skipn. apply Nat.le_refl.
  - rewrite (CaptureStackTrace_without_symbols _ Hok) in Hst.
    injection Hst as <-. simpl. lia.
Qed.

(** X11: the older capture routine has the same shape as the newer one: it
    resolves, in order, the addresses at positions 2 and up of the first 128
    of the call stack, and gives the empty trace when there is no frame to
    keep or no symbol table.  Its behaviour is undefined exactly when one of
    these frames takes its symbol from a null entry of the symbol table; a
    table without null entry rules that out. *)
Theorem CaptureStackTrace_skips_and_bounds (P : Provider) :
  (symbols_ok P = true ->
   part_002.CaptureStackTrace P =
   part_002.collect (part_002.resolve_frame P)
     (skipn 2 (firstn 128 (call_stack P)))) /\
  (forall st, part_002.CaptureStackTrace P = Some st ->
     length st <= 126 /\ length st <= length (call_stack P) - 2) /\
  (length (call_stack P) <= 2 -> part_002.CaptureStackTrace P = Some []) /\
  (symbols_ok P = false -> part_002.CaptureStackTrace P = Some []) /\
  (part_002.CaptureStackTrace P = None <->
   symbols_ok P = true /\
   exists a, In a (skipn 2 (firstn 128 (call_stack P))) /\
             part_002.frame_symbol P a (symbol_text P a) = None) /\
  (part_002.table_complete P -> part_002.CaptureStackTrace P <> None).
Proof.
  split; [apply CaptureStackTrace_with_symbols|].
  split.
  { intros st Hst. pose proof (CaptureStackTrace_length P st Hst) as Hlen.
    rewrite length_firstn in Hlen. lia. }
  split.
  { intros Hshort. destruct (symbols_ok P) eqn:Hok.
    - rewrite (CaptureStackTrace_with_symbols _ Hok).
      assert (skipn 2 (firstn part_002.kMaxStackDepth (call_stack P)) = []) as ->;
        [|reflexivity].
      apply length_zero_iff_nil. rewrite length_skipn, length_firstn. lia.
    - now apply CaptureStackTrace_without_symbols. }
  split; [apply CaptureStackTrace_without_symbols|].
  split; [|apply complete_table_defined].
  split.
  - intros Hn. destruct (symbols_ok P) eqn:Hok.
    + split; [reflexivity|].
      rewrite (CaptureStackTrace_with_symbols _ Hok) in Hn.
      apply collect_None in Hn. destruct Hn as [a [Ha Hr]].
      exists a. split; [exact Ha|]. now apply resolve_frame_None.
    + rewrite (CaptureStackTrace_without_symbols _ Hok) in Hn. discriminate Hn.
  - intros [Hok [a [Ha Hs]]]. rewrite (CaptureStackTrace_with_symbols _ Hok).
    apply collect_None. exists a. split; [exact Ha|]. now apply resolve_frame_None.
Qed.

Lemma CaptureStackTrace_skips_and_bounds_witness :
  part_002.CaptureStackTrace Sample.provider =
  part_002.collect (part_002.resolve_frame Sample.provider)
    [4242; 5000; 9000; 7777]%N /\
  part_002.CaptureStackTrace
    (mkProvider [1; 2]%N true Sample.describe Sample.resolve Sample.demangle)
  = Some [] /\
  part_002.CaptureStackTrace
    (mkProvider [1; 2; 3]%N false Sample.describe Sample.resolve Sample.demangle)
  = Some [] /\
  part_002.CaptureStackTrace
    (mkProvider [1; 2; 3]%N true (fun _ => None) Sample.resolve Sample.demangle)
  = None.
Proof.
  split; [|split; [|split]].
  - exact (proj1 (CaptureStackTrace_skips_and_bounds Sample.provider) eq_refl).
  - apply (proj1 (proj2 (proj2
             (CaptureStackTrace_skips_and_bounds
                (mkProvider [1; 2]%N true Sample.describe Sample.resolve
                            Sample.demangle))))).
    simpl. lia.
  - exact (proj1 (proj2 (proj2 (proj2
             (CaptureStackTrace_skips_and_bounds
                (mkProvider [1; 2; 3]%N false Sample.describe Sample.resolve
                            Sample.demangle))))) eq_refl).
  - apply (proj2 (proj1 (proj2 (proj2 (proj2 (proj2
             (CaptureStackTrace_skips_and_bounds
                (mkProvider [1; 2; 3]%N true (fun _ => None) Sample.resolve
                            Sample.demangle)))))))).
    split; [reflexivity|]. exists 3%N. split; [now left|reflexivity].
Defined.

Lemma frame_coordinates_agree (P : Provider) (a : N) (f : part_002.StackFrame) :
  part_002.resolve_frame P a = Some f ->
  (part_002.address f, part_002.fileName f, part_002.offset f) =
  (my_backtrace.address (my_backtrace.resolve_frame P a),
   my_backtrace.fileName (my_backtrace.symbolicInfo (my_backtrace.resolve_frame P a)),
   my_backtrace.offset (my_backtrace.symbolicInfo (my_backtrace.resolve_frame P a))).
Proof.
  unfold part_002.resolve_frame.
  destruct (part_002.frame_symbol P a (symbol_text P a)) as [s|]; [|discriminate].
  intros Hf. injection Hf as <-.
  unfold my_backtrace.resolve_frame, my_backtrace.intoSymbolicInfo,
    part_002.frame_fileName, part_002.frame_offset.
  simpl. destruct (dladdr P a) as [info|]; simpl; [|reflexivity].
  destruct (dli_fname info), (dli_fbase info); reflexivity.
Qed.

(** X12: the two capture routines see the same frames: whenever the older
    one comes back (no null table entry is turned into a string), both return
    traces of the same length whose frames agree, place by place, on address,
    file name and offset.  Only the symbol can differ. *)
Theorem captures_agree_outside_symbol (P : Provider)
    (st : list part_002.StackFrame) :
  part_002.CaptureStackTrace P = Some st ->
  length st = length (my_backtrace.current 128 P) /\
  map (fun f => (part_002.address f, part_002.fileName f, part_002.offset f)) st =
  map (fun f => (my_backtrace.address f,
                 my_backtrace.fileName (my_backtrace.symbolicInfo f),
                 my_backtrace.offset (my_backtrace.symbolicInfo f)))
      (my_backtrace.current 128 P).
Proof.
  intros Hst. destruct (symbols_ok P) eqn:Hok.
  - rewrite (CaptureStackTrace_with_symbols _ Hok) in Hst.
    rewrite (current_with_symbols _ _ Hok), length_map, map_map.
    change part_002.kMaxStackDepth with 128 in Hst.
    exact (collect_related (part_002.resolve_frame P) _
             (fun a => (my_backtrace.address (my_backtrace.resolve_frame P a),
                        my_backtrace.fileName
                          (my_backtrace.symbolicInfo (my_backtrace.resolve_frame P a)),
                        my_backtrace.offset
                          (my_backtrace.symbolicInfo (my_backtrace.resolve_frame P a))))
             _ (frame_coordinates_agree P) st Hst).
  - rewrite (CaptureStackTrace_without_symbols _ Hok) in Hst. injection Hst as <-.
    now rewrite (current_without_symbols _ _ Hok).
Qed.

Lemma captures_agree_outside_symbol_witness :
  exists st, part_002.CaptureStackTrace Sample.provider = Some st /\
    map part_002.address st =
    map my_backtrace.address (my_backtrace.current 128 Sample.provider) /\
    map part_002.symbol st = ["foo()"; "raw@5000"; "not_mangled"; "raw@7777"].
Proof.
  eexists. split; [reflexivity|].
  pose proof (captures_agree_outside_symbol Sample.provider _ eq_refl) as [_ H].
  split; [|reflexivity].
  apply (f_equal (map (fun c => fst (fst c)))) in H.
  rewrite !map_map in H. exact H.
Defined.

(** X15: addresses [dladdr] cannot resolve: the newer capture keeps nothing
    but the address of such a frame, the text [backtrace_symbols] has for it
    is dropped; the older capture keeps that text as the symbol, and its
    behaviour is undefined when the text of one of the frames is a null
    pointer. *)
Theorem unresolved_frames (DEPTH_MAX : nat) (P : Provider) :
  symbols_ok P = true ->
  (forall a, In a (call_stack P) -> dladdr P a = None) ->
  my_backtrace.current DEPTH_MAX P =
    map (fun a => my_backtrace.mkStackFrame a (my_backtrace.mkSymbolicInfo "" "" 0))
        (skipn 2 (firstn DEPTH_MAX (call_stack P))) /\
  part_002.CaptureStackTrace P =
    part_002.collect
      (fun a => match symbol_text P a with
                | Some text => Some (part_002.mkStackFrame a text "" 0%N 0%Z)
                | None => None
                end)
      (skipn 2 (firstn 128 (call_stack P))).
Proof.
  intros Hok Hnone.
  assert (forall n m a, In a (skipn n (firstn m (call_stack P))) ->
                        dladdr P a = None) as Hin.
  { intros n m a Ha. apply Hnone.
    apply (in_firstn_in m), (in_skipn_in n). exact Ha. }
  rewrite (current_with_symbols _ _ Hok), (CaptureStackTrace_with_symbols _ Hok).
  split.
  - apply map_ext_in; intros a Ha; apply Hin in Ha.
    unfold my_backtrace.resolve_frame, my_backtrace.intoSymbolicInfo.
    now rewrite Ha.
  - apply collect_ext_in; intros a Ha; apply Hin in Ha.
    unfold part_002.resolve_frame, part_002.frame_symbol, part_002.frame_fileName,
      part_002.frame_offset. now rewrite Ha.
Qed.

Lemma unresolved_frames_witness :
  my_backtrace.current 128
    (mkProvider [1; 2; 3; 4]%N true Sample.describe (fun _ => None) Sample.demangle)
  = [my_backtrace.mkStackFrame 3 (my_backtrace.mkSymbolicInfo "" "" 0);
     my_backtrace.mkStackFrame 4 (my_backtrace.mkSymbolicInfo "" "" 0)] /\
  part_002.CaptureStackTrace
    (mkProvider [1; 2; 3; 4]%N true Sample.describe (fun _ => None) Sample.demangle)
  = Some [part_002.mkStackFrame 3 "raw@3" "" 0%N 0%Z;
          part_002.mkStackFrame 4 "raw@4" "" 0%N 0%Z].
Proof.
  exact (unresolved_frames 128
           (mkProvider [1; 2; 3; 4]%N true Sample.describe (fun _ => None)
                       Sample.demangle)
           eq_refl (fun _ _ => eq_refl)).
Defined.

Lemma ptr_diff_spec (a b : N) :
  (a < 2 ^ 64)%N -> (b < 2 ^ 64)%N ->
  (ptr_diff a b < 2 ^ 64)%N /\
  ((b + ptr_diff a b) mod 2 ^ 64 = a)%N /\
  ((b <= a)%N -> ptr_diff a b = (a - b)%N) /\
  ((a < b)%N -> ptr_diff a b = (2 ^ 64 - (b - a))%N).
Proof.
  intros Ha Hb. unfold ptr_diff, uintptr_max.
  assert (Z.of_N (2 ^ 64) = (2 ^ 64)%Z) as H64 by reflexivity.
  destruct (N.le_gt_cases b a) as [Hle|Hgt].
  - assert ((Z.of_N a - Z.of_N b) mod 2 ^ 64 = Z.of_N a - Z.of_N b)%Z as Hm.
    { apply Z.mod_small. lia. }
    rewrite Hm. repeat split.
    + lia.
    + replace (b + Z.to_N (Z.of_N a - Z.of_N b))%N with a by lia.
      now apply N.mod_small.
    + intros _. lia.
    + intros Hlt. lia.
  - assert ((Z.of_N a - Z.of_N b) mod 2 ^ 64 = Z.of_N a - Z.of_N b + 2 ^ 64)%Z as Hm.
    { symmetry. apply (Z.mod_unique _ _ (-1)); lia. }
    rewrite Hm. repeat split.
    + lia.
    + replace (b + Z.to_N (Z.of_N a - Z.of_N b + 2 ^ 64))%N with (a + 1 * 2 ^ 64)%N
        by lia.
      rewrite N.Div0.mod_add. now apply N.mod_small.
    + intros Hle. lia.
    + intros _. lia.
Qed.

(** X13: the offset of a frame is the distance from the base of its module to its
    address, as a 64-bit value: adding it to the base gives the address back
    modulo [2^64]; it is the plain difference when the base is not above the
    address and wraps around otherwise.  Both capture routines compute it. *)
Theorem frame_offset_is_distance_from_base (P : Provider) (a b : N)
    (raw : option string) (info : Dl_info) :
  dladdr P a = Some info ->
  dli_fbase info = Some b ->
  (a < 2 ^ 64)%N -> (b < 2 ^ 64)%N ->
  let off := my_backtrace.offset (my_backtrace.intoSymbolicInfo P a raw) in
  part_002.frame_offset P a = off /\
  (off < 2 ^ 64)%N /\
  ((b + off) mod 2 ^ 64 = a)%N /\
  ((b <= a)%N -> off = (a - b)%N) /\
  ((a < b)%N -> off = (2 ^ 64 - (b - a))%N).
Proof.
  intros Hdl Hb Ha Hb64 off.
  assert (off = ptr_diff a b) as ->.
  { unfold off, my_backtrace.intoSymbolicInfo. now rewrite Hdl, Hb. }
  split.
  - unfold part_002.frame_offset. now rewrite Hdl, Hb.
  - now apply ptr_diff_spec.
Qed.

Lemma frame_offset_is_distance_from_base_witness :
  my_backtrace.offset
    (my_backtrace.intoSymbolicInfo Sample.provider 4242 (Some "raw@4242")) = 146%N /\
  my_backtrace.offset
    (my_backtrace.intoSymbolicInfo
       (mkProvider [] true Sample.describe
          (fun _ => Some (mkDl_info None (Some 4096%N) None None)) Sample.demangle)
       4000 None) = (2 ^ 64 - 96)%N.
Proof.
  split.
  - exact (proj1 (proj2 (proj2 (proj2
             (frame_offset_is_distance_from_base Sample.provider 4242 4096
                (Some "raw@4242") Sample.info_foo eq_refl eq_refl eq_refl eq_refl))))
           ltac:(discriminate)).
  - exact (proj2 (proj2 (proj2 (proj2
             (frame_offset_is_distance_from_base
                (mkProvider [] true Sample.describe
                   (fun _ => Some (mkDl_info None (Some 4096%N) None None))
                   Sample.demangle)
                4000 4096 None (mkDl_info None (Some 4096%N) None None)
                eq_refl eq_refl eq_refl eq_refl))))
           eq_refl).
Defined.

Lemma join_app (l1 l2 : list string) :
  join (l1 ++ l2)%list = join l1 ++ join l2.
Proof.
  induction l1 as [|x l1 IH]; simpl; [reflexivity|].
  now rewrite IH, append_assoc.
Qed.

Lemma frame_lines_app (show_pointer : N -> string)
    (a b : list my_backtrace.StackFrame) :
  forall i,
    my_backtrace.frame_lines show_pointer i (a ++ b)%list =
    (my_backtrace.frame_lines show_pointer i a ++
     my_backtrace.frame_lines show_pointer (i + N.of_nat (length a)) b)%list.
Proof.
  induction a as [|f a IH]; intros i.
  - simpl. now rewrite N.add_0_r.
  - simpl app. simpl my_backtrace.frame_lines. rewrite IH. simpl app.
    do 3 f_equal. simpl length. lia.
Qed.

(** X14: formatting goes frame by frame: the text of two traces put end to end is
    the text of the first followed by the lines of the second, numbered on
    from where the first stopped; and the text is empty for the empty trace
    only. *)
Theorem toString_of_concatenation (show_pointer : N -> string)
    (a b : my_backtrace.StackTrace) :
  my_backtrace.toString show_pointer (a ++ b)%list =
    my_backtrace.toString show_pointer a ++
    join (my_backtrace.frame_lines show_pointer (N.of_nat (length a)) b) /\
  (my_backtrace.toString show_pointer a = "" <-> a = []).
Proof.
  split.
  - unfold my_backtrace.toString.
    rewrite !toString_loop_lines, frame_lines_app, join_app. reflexivity.
  - split.
    + destruct a as [|f a]; [reflexivity|].
      unfold my_backtrace.toString. rewrite toString_loop_lines.
      simpl. discriminate.
    + intros ->. reflexivity.
Qed.

(** * The driver *)

Section Driver.

Variable T : Type.
Variable show_pointer : N -> string.
Variable provider_at : nat -> Provider.
Variable show_value : T -> string.

Lemma task_inv_print (id : nat) (w0 : World) (t : TracedTask T) (w : World)
    (s : string) :
  task_inv show_pointer provider_at id w0 (t, w) ->
  task_inv show_pointer provider_at id w0 (t, print s w).
Proof.
  intros [f [d H]]. exists f, d. exact H.
Qed.

(** X9: [runTask] on a task just created, whatever its body: it never runs into
    undefined behaviour and lets no [std::exception] out; when the task is
    still not ready after the one [run], it prints the "not completed"
    message as a caught exception; a value or a caught failure is printed
    after the prefix of the result line, which is already out when [result]
    throws; and the sink got at most one call for the task. *)
Theorem runTask_on_created_task (body : Body T) (taskName : string) (w : World) :
  let s := create show_pointer provider_at body w in
  let out := runTask show_pointer show_value (fst s) taskName (snd s) in
  let task := fst (fst out) in
  let w' := snd (fst out) in
  snd out <> undefined /\
  (forall e, snd out = throws e ->
     is_std_exception e = false /\ result task = throws e) /\
  (is_ready task = false ->
     snd out = returns tt /\
     exists l, cout w' =
       (l ++ ["Task completed with result: ";
              "Caught exception: TracedTask not completed"])%list) /\
  (forall v, result task = returns v ->
     snd out = returns tt /\
     exists l, cout w' = (l ++ ["Task completed with result: "; show_value v])%list) /\
  (forall e, result task = throws e -> is_std_exception e = true ->
     snd out = returns tt /\
     exists l, cout w' =
       (l ++ ["Task completed with result: ";
              ("Caught exception: " ++ what_of e)%string])%list) /\
  exists d, reports w' = (reports w ++ d)%list /\
            length (own (frames_created w) d) <= 1.
Proof.
  intros s out task w'.
  pose proof (create_inv T show_pointer provider_at body w) as Hc. fold s in Hc.
  destruct s as [t0 w0]. simpl fst in *. simpl snd in *.
  subst task w' out. unfold runTask.
  remember (print ("Running task: " ++ taskName) w0) as wp eqn:Hwp.
  assert (task_inv show_pointer provider_at (frames_created w) w (t0, wp)) as Hp.
  { rewrite Hwp. now apply task_inv_print. }
  pose proof (proj1 (step_inv T show_pointer provider_at _ _ do_run _ Hp)) as Hr.
  change (step_op show_pointer do_run (t0, wp)) with (run show_pointer t0 wp) in Hr.
  destruct (run show_pointer t0 wp) as [t1 w1].
  destruct Hr as [f [d [Hh [Hid [Hfi [Hfc [Hrep Hown]]]]]]].
  simpl fst in Hh. simpl snd in Hfc, Hrep.
  pose proof (result_defined T provider_at f Hfi) as Hdef.
  destruct (result_by_handle T t1 (mkTask (Some f)) Hh) as [Hres Hrdy].
  rewrite <- Hres in Hdef.
  assert (exists d, reports w1 = (reports w ++ d)%list /\
                    length (own (frames_created w) d) <= 1) as Hlog.
  { exists d. split; [exact Hrep|].
    rewrite Hown. unfold due_reports. destruct (state f); [simpl; lia|].
    destruct (result_slot (promise f)) as [[e|]|v]; simpl; lia. }
  destruct (result t1) as [v|e|] eqn:Hr1; [| |congruence].
  - cbn [fst snd]. rewrite Hr1.
    split; [discriminate|]. split; [discriminate|]. split.
    { intros Hnr. unfold result in Hr1. rewrite Hnr in Hr1. discriminate Hr1. }
    split.
    { intros v' Hv. injection Hv as <-. split; [reflexivity|].
      exists (cout w1). cbn [cout print]. now rewrite <- app_assoc. }
    split; [discriminate|]. exact Hlog.
  - destruct (is_std_exception e) eqn:Hstd; cbn [fst snd]; rewrite Hr1.
    + split; [discriminate|]. split; [discriminate|]. split.
      { intros Hnr. split; [reflexivity|].
        unfold result in Hr1. rewrite Hnr in Hr1. injection Hr1 as <-.
        exists (cout w1). cbn [cout print]. now rewrite <- app_assoc. }
      split; [discriminate|]. split.
      { intros e' He' _. injection He' as <-. split; [reflexivity|].
        exists (cout w1). cbn [cout print]. now rewrite <- app_assoc. }
      exact Hlog.
    + split; [discriminate|]. split.
      { intros e' He'. injection He' as <-. now split. }
      split.
      { intros Hnr. unfold result in Hr1. rewrite Hnr in Hr1. injection Hr1 as <-.
        discriminate Hstd. }
      split; [discriminate|]. split.
      { intros e' He' Hstd'. injection He' as <-. congruence. }
      exact Hlog.
Qed.

End Driver.

(** X10: the program of main.cpp, for every execution environment: it exits with
    status 0, the sink is called three times, for the third-level, the
    second-level and the top-level task in that order, and the last lines of
    output are the prefix of the result line followed by the message of the
    caught failure. *)
Theorem main_reports_three_levels (show_pointer : N -> string)
    (provider_at : nat -> Provider) (w : World) :
  let id := frames_created w in
  let e := runtime_error "Exception from third level task" in
  let r2 := report_of show_pointer provider_at (S (S id)) e in
  let r1 := report_of show_pointer provider_at (S id) e in
  let r0 := report_of show_pointer provider_at id e in
  snd (main show_pointer provider_at w) = returns 0%Z /\
  reports (fst (main show_pointer provider_at w)) = (reports w ++ [r2; r1; r0])%list /\
  cout (fst (main show_pointer provider_at w)) =
    (cout w ++
     [("=== Nested Coroutines with Exception Tracing ===" ++ newline
         ++ newline)%string;
      ("Example 1: Unhandled exception through nested coroutines"
         ++ newline)%string;
      "Top level task - Calling second level";
      " Second level task - Calling third level";
      "  Third level task - Throwing exception"] ++
     report_output r2 ++ report_output r1 ++ report_output r0 ++
     ["Running task: TopLevelTask";
      "Task completed with result: ";
      "Caught exception: Exception from third level task";
      newline])%list.
Proof.
  unfold main, runTask, create, coroutine_call. simpl.
  repeat split; repeat rewrite <- app_assoc; reflexivity.
Qed.

(** * The older variant of the task *)

(** X16: both reporters hand the sink the same three texts: the older one, given
    a trace in the older layout, does what the newer one does on the same
    frames in the newer layout, whatever the sink is. *)
Theorem reporters_agree (show_pointer : N -> string) (S : Type)
    (RecordException : string -> string -> string -> S -> outcome S)
    (exception : exception_ptr) (stackTrace : list part_002.StackFrame) (s : S) :
  Task_variant.ReportExceptionToFirebase show_pointer RecordException exception
    stackTrace s =
  reportExceptionToFirebase show_pointer RecordException exception
    (map part_002.to_frame stackTrace) s.
Proof.
  unfold Task_variant.ReportExceptionToFirebase, reportExceptionToFirebase,
    part_002.FormatStackTrace, my_backtrace.toString.
  rewrite FormatStackTrace_loop_toString. reflexivity.
Qed.

Section TaskVariantProperties.

Variable T : Type.
Variable show_pointer : N -> string.
Variable provider_at : nat -> Provider.

(** The captures of the frames are defined: no null entry of a symbol table
    is turned into a string. *)
Hypothesis captures_defined :
  forall n, part_002.CaptureStackTrace (provider_at n) <> None.

Local Abbreviation exec1 := (Task_variant.exec show_pointer provider_at).
Local Abbreviation create1 := (Task_variant.create show_pointer provider_at).
Local Abbreviation report1 := (Task_variant.report_of show_pointer provider_at).

Lemma variant_initial_suspend (id : nat) (p : Task_variant.promise_type T) :
  Task_variant.initial_suspend T provider_at id p =
  Some (Task_variant.mkPromise (Task_variant.result_slot p)
          (Task_variant.exception_slot p) (Task_variant.trace_of provider_at id)).
Proof.
  unfold Task_variant.initial_suspend, Task_variant.trace_of.
  pose proof (captures_defined id) as H.
  now destruct (part_002.CaptureStackTrace (provider_at id)).
Qed.

Lemma variant_exec_prints {A : Type} (l : list string) (k : Prog T A) :
  forall w, exec1 (prints l k) w = exec1 k (printed l w).
Proof.
  induction l as [|s l IH]; intros w; simpl; [reflexivity|apply IH].
Qed.

Lemma variant_call_throwing (body : World -> Res T Empty_set) (e : exn)
    (w w1 : World) :
  body (allocate_frame w) = Threw e w1 ->
  exists t w',
    Task_variant.coroutine_call show_pointer provider_at body w = Some (t, w') /\
    Task_variant.is_ready t = true /\
    Task_variant.result t = throws e /\
    frames_created w' = frames_created w1 /\
    cout w' = (cout w1 ++ report_output (report1 (frames_created w) e))%list /\
    reports w' = (reports w1 ++ [report1 (frames_created w) e])%list.
Proof.
  intros H. unfold Task_variant.coroutine_call.
  rewrite variant_initial_suspend, H.
  eexists. eexists. split; [reflexivity|].
  destruct e; repeat split.
Qed.

Lemma variant_await_throwing {A : Type} (callee : Body T) (k : T -> Prog T A)
    (e : exn) (w w1 : World) :
  exec1 callee (allocate_frame w) = Threw e w1 ->
  exists w',
    exec1 (AwaitCall callee k) w = Threw e w' /\
    frames_created w' = frames_created w1 /\
    reports w' = (reports w1 ++ [report1 (frames_created w) e])%list.
Proof.
  intros H. simpl. unfold Task_variant.coroutine_call.
  rewrite variant_initial_suspend, H.
  eexists. split; [reflexivity|]. destruct e; split; reflexivity.
Qed.

(** X17: catching everything and throwing it again, as [TopLevelTask] of this
    variant does, hides nothing from the reporter: when the captures are
    defined, the task ends with the failure of the task it awaited, and the
    sink gets a call for the awaited frame and then one for the awaiting
    frame. *)
Theorem rethrowing_handler_is_still_reported
    (pre : list string) (inner : Body T) (kb : T -> Prog T unit) (k : Body T)
    (e : exn) (w w1 : World) :
  let id := frames_created w in
  let outer := prints pre (TryCatch (AwaitCall inner kb) (fun _ => true)
                             (fun x => Throw x) k) in
  exec1 inner (allocate_frame (printed pre (allocate_frame w))) = Threw e w1 ->
  exists t w',
    create1 outer w = Some (t, w') /\
    Task_variant.is_ready t = true /\
    Task_variant.result t = throws e /\
    reports w' = (reports w1 ++ [report1 (S id) e; report1 id e])%list.
Proof.
  intros id outer Hin.
  remember (printed pre (allocate_frame w)) as wA eqn:HwA.
  assert (frames_created wA = S id) as HfA.
  { rewrite HwA. now destruct (printed_same pre (allocate_frame w)) as [-> _]. }
  destruct (variant_await_throwing inner kb e wA w1 Hin) as [w2 [Haw [Hf2 Hr2]]].
  assert (exec1 outer (allocate_frame w) = Threw e w2) as Hout.
  { unfold outer. rewrite variant_exec_prints, <- HwA.
    change (exec1 (TryCatch (AwaitCall inner kb) (fun _ => true)
                     (fun x => Throw x) k) wA)
      with (bind_res (catch_res (exec1 (AwaitCall inner kb) wA) (fun _ => true)
                        (fun x => exec1 (Throw x)))
                     (exec1 k)).
    rewrite Haw. reflexivity. }
  destruct (variant_call_throwing _ e w w2 Hout) as [t [w' [Hc [Hrdy [Hres [_ [_ Hr]]]]]]].
  exists t, w'. unfold Task_variant.create.
  split; [exact Hc|]. split; [exact Hrdy|]. split; [exact Hres|].
  rewrite Hr, Hr2, HfA. now rewrite <- app_assoc.
Qed.

(** X18: [RunTask] asks a task for its result only when it is ready: on a
    task that is still suspended after the one [run], it prints the header
    and nothing else, and comes back normally without the "not completed"
    error (the captures being defined). *)
Theorem RunTask_skips_unfinished_task (show_value : T -> string) (body : Body T)
    (taskName : string) (k1 k2 : World -> Res T Empty_set) (w w1 w2 : World) :
  exec1 body (allocate_frame w) = Paused k1 w1 ->
  k1 (print ("Running task: " ++ taskName) w1) = Paused k2 w2 ->
  exists t0,
    create1 body w = Some (t0, w1) /\
    Task_variant.is_ready t0 = false /\
    let out := Task_variant.RunTask show_pointer show_value t0 taskName w1 in
    snd out = returns tt /\
    snd (fst out) = w2 /\
    Task_variant.is_ready (fst (fst out)) = false /\
    Task_variant.result (fst (fst out)) = throws Task_variant.not_completed.
Proof.
  intros H1 H2. unfold Task_variant.create, Task_variant.coroutine_call.
  rewrite variant_initial_suspend, H1.
  eexists. split; [reflexivity|]. split; [reflexivity|].
  unfold Task_variant.RunTask, Task_variant.run, Task_variant.handle_resume.
  cbn [Task_variant.handle Task_variant.state Task_variant.promise
       Task_variant.frame_id Task_variant.settle].
  rewrite H2. simpl. repeat split.
Qed.

End TaskVariantProperties.

Lemma Sample_captures_defined :
  forall n, part_002.CaptureStackTrace (Sample.providers n) <> None.
Proof.
  intros n. apply complete_table_defined. intros a. discriminate.
Qed.

Lemma rethrowing_handler_is_still_reported_witness :
  exists t w',
    Task_variant.create Sample.show_pointer Sample.providers
      Task_variant.TopLevelTask Sample.world0 = Some (t, w') /\
    Task_variant.result t =
      throws (runtime_error "Exception from third level task") /\
    skipn 1 (reports w') =
      [Task_variant.report_of Sample.show_pointer Sample.providers 1
         (runtime_error "Exception from third level task");
       Task_variant.report_of Sample.show_pointer Sample.providers 0
         (runtime_error "Exception from third level task")].
Proof.
  destruct (rethrowing_handler_is_still_reported Z Sample.show_pointer
              Sample.providers Sample_captures_defined
              ["Top level task - Calling second level"]
              Task_variant.SecondLevelTask
              (fun result => Print ("Result: " ++ show_int result) (Pure tt))
              (CoReturn 1%Z)
              (runtime_error "Exception from third level task")
              Sample.world0 _ eq_refl) as [t [w' [Hc [_ [Hres Hrep]]]]].
  exists t, w'. split; [exact Hc|]. split; [exact Hres|].
  rewrite Hrep. reflexivity.
Defined.

Lemma RunTask_skips_unfinished_task_witness :
  exists t0 w0,
    Task_variant.create Sample.show_pointer Sample.providers
      (Suspend (Print "half way" (Suspend (CoReturn 5%Z)))) Sample.world0
    = Some (t0, w0) /\
    snd (Task_variant.RunTask Sample.show_pointer show_int t0 "Unfinished" w0)
    = returns tt /\
    cout (snd (fst (Task_variant.RunTask Sample.show_pointer show_int t0
                      "Unfinished" w0)))
    = ["Running task: Unfinished"; "half way"].
Proof.
  destruct (RunTask_skips_unfinished_task Z Sample.show_pointer Sample.providers
              Sample_captures_defined show_int
              (Suspend (Print "half way" (Suspend (CoReturn 5%Z))))
              "Unfinished" _ _ Sample.world0 _ _ eq_refl eq_refl)
    as [t0 [Hc [_ [Hout [Hw _]]]]].
  exists t0. eexists. split; [exact Hc|]. split; [exact Hout|].
  rewrite Hw. reflexivity.
Defined.

(** X19: the program of the older file.  In every execution environment
    where the captures of its frames are defined, it exits with status 0 and
    the sink is called five times, for the third, second and top level of the
    first example and for the third and second level of the second, whose top
    level catches the failure and completes with 1.  When the capture of its
    first frame turns a null table entry into a string, the behaviour of the
    program is undefined from there. *)
Theorem variant_main_reports_five_times (show_pointer : N -> string)
    (provider_at : nat -> Provider) (w : World) :
  let id := frames_created w in
  let e := runtime_error "Exception from third level task" in
  let r := Task_variant.report_of show_pointer provider_at in
  ((forall n, part_002.CaptureStackTrace (provider_at n) <> None) ->
   snd (Task_variant.main show_pointer provider_at w) = returns 0%Z /\
   frames_created (fst (Task_variant.main show_pointer provider_at w)) = 6 + id /\
   reports (fst (Task_variant.main show_pointer provider_at w)) =
     (reports w ++
      [r (2 + id) e; r (1 + id) e; r id e; r (5 + id) e; r (4 + id) e])%list /\
   cout (fst (Task_variant.main show_pointer provider_at w)) =
     (cout w ++
      [("=== Nested Coroutines with Exception Tracing ===" ++ newline
          ++ newline)%string;
       ("Example 1: Unhandled exception through nested coroutines"
          ++ newline)%string;
       "Top level task - Calling second level";
       " Second level task - Calling third level";
       "  Third level task - Throwing exception"] ++
      report_output (r (2 + id) e) ++ report_output (r (1 + id) e) ++
      report_output (r id e) ++
      ["Running task: TopLevelTask";
       "Task completed with result: ";
       "Caught exception: Exception from third level task";
       newline;
       ("Example 2: Handled exception across coroutines" ++ newline)%string;
       "Task with handled exception - Calling second level";
       " Second level task - Calling third level";
       "  Third level task - Throwing exception"] ++
      report_output (r (5 + id) e) ++ report_output (r (4 + id) e) ++
      ["Exception caught and handled: Exception from third level task";
       "Running task: HandledExceptionTask";
       "Task completed with result: ";
       "1"])%list) /\
  (part_002.CaptureStackTrace (provider_at id) = None ->
   snd (Task_variant.main show_pointer provider_at w) = undefined).
Proof.
  intros id e r. split.
  - intros Hdef. subst id e r.
    lazy -[app append newline part_002.FormatStackTrace part_002.CaptureStackTrace].
    repeat match goal with
    | |- context [part_002.CaptureStackTrace (provider_at ?n)] =>
        let E := fresh "E" in
        destruct (part_002.CaptureStackTrace (provider_at n)) eqn:E;
          [|exfalso; exact (Hdef _ E)]
    end.
    repeat split; repeat rewrite <- app_assoc; reflexivity.
  - intros Hnone. subst id.
    unfold Task_variant.main, Task_variant.create, Task_variant.coroutine_call,
      Task_variant.initial_suspend.
    cbn [frames_created print allocate_frame]. rewrite Hnone. reflexivity.
Qed.

Lemma variant_main_reports_five_times_witness :
  snd (Task_variant.main Sample.show_pointer Sample.providers Sample.world0)
  = returns 0%Z /\
  length (reports (fst (Task_variant.main Sample.show_pointer Sample.providers
                          Sample.world0))) = 5 /\
  snd (Task_variant.main Sample.show_pointer
         (fun _ => mkProvider [1; 2; 3]%N true (fun _ => None) (fun _ => None)
                              Sample.demangle)
         Sample.world0) = undefined.
Proof.
  pose proof (variant_main_reports_five_times Sample.show_pointer Sample.providers
                Sample.world0) as [H _].
  destruct (H Sample_captures_defined) as [Hs [_ [Hr _]]].
  split; [exact Hs|]. split; [rewrite Hr; reflexivity|].
  exact (proj2 (variant_main_reports_five_times Sample.show_pointer
                  (fun _ => mkProvider [1; 2; 3]%N true (fun _ => None)
                                       (fun _ => None) Sample.demangle)
                  Sample.world0) eq_refl).
Defined.

(** * Examples for the further properties *)

Lemma failing_body_is_reported_once_witness :
  let s := create Sample.show_pointer Sample.providers thirdLevelTask Sample.world0 in
  result (fst s) = throws (runtime_error "Exception from third level task") /\
  reports (snd s) =
    [report_of Sample.show_pointer Sample.providers 0
       (runtime_error "Exception from third level task")].
Proof.
  pose proof (failing_body_is_reported_once Z Sample.show_pointer Sample.providers
                thirdLevelTask (runtime_error "Exception from third level task")
                Sample.world0 _ eq_refl) as [_ [Hres [_ [_ Hrep]]]].
  split; [exact Hres|]. exact (Hrep I).
Defined.

Lemma ready_task_is_final_witness :
  let s := create Sample.show_pointer Sample.providers thirdLevelTask Sample.world0 in
  snd (lifetime Sample.show_pointer [do_run; do_result; do_move; do_run] s) = snd s.
Proof.
  exact (proj1 (ready_task_is_final Z Sample.show_pointer
                  (fst (create Sample.show_pointer Sample.providers thirdLevelTask
                          Sample.world0))
                  (snd (create Sample.show_pointer Sample.providers thirdLevelTask
                          Sample.world0))
                  [do_run; do_result; do_move; do_run] eq_refl)).
Defined.

Lemma await_resumes_only_once_witness :
  exec Sample.show_pointer Sample.providers
    (AwaitCall (Suspend (Print "half way" (Suspend (CoReturn 5%Z))))
       (fun v => CoReturn v : Body Z))
    Sample.world0
  = Threw not_completed (print "half way" (allocate_frame Sample.world0)).
Proof.
  exact (await_resumes_only_once Z Sample.show_pointer Sample.providers
           (Suspend (Print "half way" (Suspend (CoReturn 5%Z))))
           (fun v => CoReturn v) _ _ Sample.world0 _ _ eq_refl eq_refl).
Defined.

Lemma await_passes_value_witness :
  exec Sample.show_pointer Sample.providers
    (AwaitCall (Suspend (CoReturn 5%Z)) (fun v => CoReturn (v + 1)%Z : Body Z))
    Sample.world0
  = Returned 6%Z (allocate_frame Sample.world0).
Proof.
  exact (proj2 (await_passes_value Z Sample.show_pointer Sample.providers
                  (CoReturn 5%Z) (fun v => CoReturn (v + 1)%Z) 5%Z
                  Sample.world0 _ eq_refl)).
Defined.

Lemma unmatched_clause_lets_failure_through_witness :
  let s := create Sample.show_pointer Sample.providers
             (TryCatch (AwaitCall (Throw (other_exception 7)) (fun _ => Pure tt))
                       is_std_exception
                       (fun e => Print ("Exception caught and handled: " ++ what_of e)
                                   (Pure tt))
                       (CoReturn 1%Z))
             Sample.world0 in
  result (fst s) = throws (other_exception 7) /\
  reports (snd s) =
    [report_of Sample.show_pointer Sample.providers 1 (other_exception 7);
     report_of Sample.show_pointer Sample.providers 0 (other_exception 7)].
Proof.
  pose proof (unmatched_clause_lets_failure_through Z Sample.show_pointer
                Sample.providers [] (Throw (other_exception 7)) (fun _ => Pure tt)
                is_std_exception
                (fun e => Print ("Exception caught and handled: " ++ what_of e)
                            (Pure tt))
                (CoReturn 1%Z) (other_exception 7) Sample.world0 _
                eq_refl eq_refl) as [_ [Hres Hrep]].
  exact (conj Hres Hrep).
Defined.

Lemma runTask_on_created_task_witness :
  let s := create Sample.show_pointer Sample.providers
             (Suspend (Suspend (CoReturn 5%Z))) Sample.world0 in
  let out := runTask Sample.show_pointer show_int (fst s) "Unfinished" (snd s) in
  snd out = returns tt /\
  exists l, cout (snd (fst out)) =
    (l ++ ["Task completed with result: ";
           "Caught exception: TracedTask not completed"])%list.
Proof.
  exact (proj1 (proj2 (proj2
           (runTask_on_created_task Z Sample.show_pointer Sample.providers show_int
              (Suspend (Suspend (CoReturn 5%Z))) "Unfinished" Sample.world0)))
         eq_refl).
Defined.

(** X20: a body that catches the failure [e] of the task it awaited and then
    throws a failure [e2] of its own (from the handler or from what follows)
    ends with [e2]: the sink gets exactly one call for the awaiting frame,
    carrying [e2] and not the caught [e], and still exactly one for the
    awaited frame, carrying [e]. *)
Theorem failure_after_catch_is_reported_as_new
    (T : Type) (show_pointer : N -> string) (provider_at : nat -> Provider)
    (pre : list string) (inner : Body T) (kb : T -> Prog T unit)
    (catches : exn -> bool) (handler : exn -> Prog T unit) (k : Body T)
    (e e2 : exn) (w w1 w2 : World) :
  let id := frames_created w in
  let outer := prints pre (TryCatch (AwaitCall inner kb) catches handler k) in
  let s := create show_pointer provider_at outer w in
  exec show_pointer provider_at inner
    (allocate_frame (printed pre (allocate_frame w))) = Threw e w1 ->
  catches e = true ->
  bind_res
    (exec show_pointer provider_at (handler e)
       (firebase.RecordException (S id) (fst (kind_and_message e))
          (snd (kind_and_message e))
          (my_backtrace.toString show_pointer (trace_of provider_at (S id))) w1))
    (exec show_pointer provider_at k) = Threw e2 w2 ->
  is_ready (fst s) = true /\
  result (fst s) = throws e2 /\
  exists d, reports (snd s) = (reports w ++ d)%list /\
            own id d = [report_of show_pointer provider_at id e2] /\
            own (S id) d = [report_of show_pointer provider_at (S id) e].
Proof.
  intros id outer s Hin Hcatch Hrest.
  remember (printed pre (allocate_frame w)) as wA eqn:HwA.
  assert (frames_created wA = S id /\ reports wA = reports w) as [HfA HrA].
  { rewrite HwA. destruct (printed_same pre (allocate_frame w)) as [-> ->]. now split. }
  set (w1' := firebase.RecordException (S id) (fst (kind_and_message e))
                (snd (kind_and_message e))
                (my_backtrace.toString show_pointer (trace_of provider_at (S id))) w1)
    in *.
  assert (exec show_pointer provider_at outer (allocate_frame w) = Threw e2 w2) as Hout.
  { unfold outer. rewrite exec_prints, <- HwA. simpl exec.
    pose proof (await_throwing T show_pointer provider_at inner kb e wA w1 Hin) as Haw.
    simpl exec in Haw. rewrite Haw, HfA. simpl catch_res. rewrite Hcatch. exact Hrest. }
  unfold s, create.
  rewrite (call_throwing T show_pointer provider_at _ e2 w w2 Hout).
  simpl fst. simpl snd.
  split; [reflexivity|]. split; [reflexivity|].
  pose proof (exec_safe T show_pointer provider_at inner (S (S id)) (allocate_frame wA))
    as Hsafe1.
  rewrite Hin in Hsafe1. simpl in Hsafe1.
  destruct Hsafe1 as [Hf1 [d1 [Hr1 Hd1]]]; [rewrite HfA; lia|].
  simpl in Hr1, Hf1. rewrite HrA in Hr1. rewrite HfA in Hf1.
  destruct (RecordException_report show_pointer provider_at (S id) e w1) as [Hr1' Hf1'].
  fold w1' in Hr1', Hf1'.
  assert (safe (S (S id)) w1'
            (bind_res (exec show_pointer provider_at (handler e) w1')
                      (exec show_pointer provider_at k))) as Hsafe2.
  { apply (safe_bind T provider_at).
    - intros w' Hw'. now apply (exec_safe T).
    - lia.
    - apply (exec_safe T). lia. }
  rewrite Hrest in Hsafe2. simpl in Hsafe2.
  destruct Hsafe2 as [_ [d2 [Hr2 Hd2]]].
  destruct (RecordException_report show_pointer provider_at id e2 w2) as [Hr3 _].
  fold id in Hr3.
  exists (d1 ++ [report_of show_pointer provider_at (S id) e] ++ d2 ++
          [report_of show_pointer provider_at id e2])%list.
  split.
  { fold id. rewrite Hr3, Hr2, Hr1', Hr1. now rewrite <- !app_assoc. }
  rewrite !own_app. split.
  - rewrite (own_none id (S (S id)) d1), (own_none id (S (S id)) d2),
      own_report_other, own_report_of by (auto; lia). reflexivity.
  - rewrite (own_none (S id) (S (S id)) d1), (own_none (S id) (S (S id)) d2),
      own_report_of, own_report_other by (auto; lia). reflexivity.
Qed.

Lemma failure_after_catch_is_reported_as_new_witness :
  let s := create Sample.show_pointer Sample.providers
             (TryCatch (AwaitCall thirdLevelTask (fun _ => Pure tt))
                       is_std_exception
                       (fun _ => Throw (runtime_error "gave up"))
                       (CoReturn 1%Z))
             Sample.world0 in
  result (fst s) = throws (runtime_error "gave up") /\
  exists d, reports (snd s) = d /\
            own 0 d = [report_of Sample.show_pointer Sample.providers 0
                         (runtime_error "gave up")].
Proof.
  destruct (failure_after_catch_is_reported_as_new Z Sample.show_pointer
              Sample.providers [] thirdLevelTask (fun _ => Pure tt)
              is_std_exception (fun _ => Throw (runtime_error "gave up"))
              (CoReturn 1%Z)
              (runtime_error "Exception from third level task")
              (runtime_error "gave up") Sample.world0 _ _
              eq_refl eq_refl eq_refl) as [_ [Hres [d [Hrep [Hown _]]]]].
  split; [exact Hres|]. exists d. split; [exact Hrep|exact Hown].
Defined.

(** * Outcomes that pass through an await *)

Section ThroughAnAwait.

Variable T : Type.
Variable show_pointer : N -> string.
Variable provider_at : nat -> Provider.

Local Abbreviation exec' := (exec show_pointer provider_at).
Local Abbreviation create' := (create show_pointer provider_at).
Local Abbreviation report' := (report_of show_pointer provider_at).

(** The awaited body pauses on its first run and throws when the await
    resumes it. *)
Lemma await_throwing_after_resume {A : Type} (callee : Body T) (k : T -> Prog T A)
    (k1 : World -> Res T Empty_set) (e : exn) (w w0 w1 : World) :
  exec' callee (allocate_frame w) = Paused k1 w0 ->
  k1 w0 = Threw e w1 ->
  exec' (AwaitCall callee k) w =
  Threw e (firebase.RecordException (frames_created w)
             (fst (kind_and_message e)) (snd (kind_and_message e))
             (my_backtrace.toString show_pointer
                (trace_of provider_at (frames_created w))) w1).
Proof.
  intros H1 H2. simpl.
  unfold coroutine_call, co_await, await_ready, await_suspend, handle_resume.
  rewrite H1. simpl. rewrite H2. simpl.
  rewrite (final_suspend_failure T show_pointer provider_at _ _ e) by reflexivity.
  reflexivity.
Qed.

(** The awaited body pauses on its first run and again when the await
    resumes it. *)
Lemma await_of_unfinished {A : Type} (callee : Body T) (k : T -> Prog T A)
    (k1 k2 : World -> Res T Empty_set) (w w1 w2 : World) :
  exec' callee (allocate_frame w) = Paused k1 w1 ->
  k1 w1 = Paused k2 w2 ->
  exec' (AwaitCall callee k) w = Threw not_completed w2.
Proof.
  intros H1 H2. simpl.
  unfold coroutine_call, co_await, await_ready, await_suspend, handle_resume.
  rewrite H1. simpl. rewrite H2. reflexivity.
Qed.

(** What a body awaited from world [w] has added to the sink log when it
    stops for the first or for the second time: calls for frames created
    after the awaited one only. *)
Lemma awaited_body_log (callee : Body T) (w : World) :
  let r := exec' callee (allocate_frame w) in
  let n := S (frames_created w) in
  (forall e w1, r = Threw e w1 -> extends n (allocate_frame w) w1) /\
  (forall k1 w0, r = Paused k1 w0 ->
     (forall e w1, k1 w0 = Threw e w1 -> extends n (allocate_frame w) w1) /\
     (forall k2 w2, k1 w0 = Paused k2 w2 -> extends n (allocate_frame w) w2)).
Proof.
  intros r n.
  pose proof (exec_safe T show_pointer provider_at callee n
                (allocate_frame w) (le_n _)) as Hs.
  fold r in Hs.
  split.
  - intros e w1 Hr. rewrite Hr in Hs. exact Hs.
  - intros k1 w0 Hr. rewrite Hr in Hs. simpl in Hs. destruct Hs as [He Hk].
    assert (safe n w0 (k1 w0)) as Hs1.
    { apply Hk. destruct He as [Hf' _]. exact Hf'. }
    split.
    + intros e w1 Hk1. rewrite Hk1 in Hs1. simpl in Hs1.
      exact (extends_trans _ _ _ _ He Hs1).
    + intros k2 w2 Hk1. rewrite Hk1 in Hs1. simpl in Hs1. destruct Hs1 as [Hs1 _].
      exact (extends_trans _ _ _ _ He Hs1).
Qed.

(** C4, amended: on a task that is not ready, [result] throws the "not
    completed" runtime error and changes neither the task nor the world: the
    call itself gives the sink nothing.  When the call is the one an await
    makes (the awaited task being still suspended after the await resumed
    it), the error is thrown inside the awaiting body; a body that does not
    catch it ends with it, and the sink then gets exactly one call, carrying
    that error, for the awaiting task, and none for the task that was not
    ready. *)
Theorem usage_failure_is_reported_by_the_awaiting_task
    (t : TracedTask T) (pre : list string) (callee : Body T) (k : T -> Body T)
    (k1 k2 : World -> Res T Empty_set) (w w1 w2 : World) :
  (is_ready t = false ->
   result t = throws not_completed /\
   not_completed = std_exception "St13runtime_error" "TracedTask not completed" /\
   forall w0, step_op show_pointer do_result (t, w0) = (t, w0)) /\
  (let id := frames_created w in
   let s := create' (prints pre (AwaitCall callee k)) w in
   exec' callee (allocate_frame (printed pre (allocate_frame w))) = Paused k1 w1 ->
   k1 w1 = Paused k2 w2 ->
   is_ready (fst s) = true /\
   result (fst s) = throws not_completed /\
   exists d, reports (snd s) = (reports w ++ d)%list /\
             own id d = [report' id not_completed] /\
             own (S id) d = []).
Proof.
  split.
  { intros Hnot. unfold result. rewrite Hnot. simpl. repeat split. }
  intros id s H1 H2.
  remember (printed pre (allocate_frame w)) as wA eqn:HwA.
  assert (frames_created wA = S id /\ reports wA = reports w) as [HfA HrA].
  { rewrite HwA. destruct (printed_same pre (allocate_frame w)) as [-> ->]. now split. }
  assert (exec' (prints pre (AwaitCall callee k)) (allocate_frame w)
          = Threw not_completed w2) as Hout.
  { rewrite (exec_prints T show_pointer provider_at), <- HwA.
    exact (await_of_unfinished callee k k1 k2 wA w1 w2 H1 H2). }
  unfold s, create.
  rewrite (call_throwing T show_pointer provider_at _ not_completed w w2 Hout).
  cbn [fst snd].
  split; [reflexivity|]. split; [reflexivity|].
  destruct (proj2 (awaited_body_log callee wA) k1 w1 H1) as [_ Hp].
  destruct (Hp k2 w2 H2) as [_ [d [Hr Hd]]]. simpl in Hr.
  rewrite HfA in Hd. rewrite HrA in Hr.
  destruct (RecordException_report show_pointer provider_at id not_completed w2)
    as [Hr2 _].
  exists (d ++ [report' id not_completed])%list.
  split; [fold id; now rewrite Hr2, Hr, <- app_assoc|].
  rewrite !own_app. split.
  - rewrite (own_none id (S (S id)) d), own_report_of by (auto; lia). reflexivity.
  - rewrite (own_none (S id) (S (S id)) d), own_report_other by (auto; lia).
    reflexivity.
Qed.

(** C3, amended: the outer body awaits, inside a try block, an inner task
    whose body throws [e], on its first run or when the await resumes it, and
    a clause catches [e].  The sink gets exactly one call, carrying [e] and
    the inner trace, for the inner task, and what it gets for the outer task
    follows the outcome the outer body then chooses: nothing when handler and
    rest of the body return a value [v], the task being ready with [v];
    exactly one call, carrying the failure [e2] the body throws after the
    catch, when it throws one, the task being ready with [e2]; nothing so far
    when the body suspends, the task being not ready. *)
Theorem caught_failure_reports_follow_the_outcome
    (pre : list string) (inner : Body T) (kb : T -> Prog T unit)
    (catches : exn -> bool) (handler : exn -> Prog T unit) (k : Body T)
    (e : exn) (k1 : World -> Res T Empty_set) (w w0 w1 : World) :
  let id := frames_created w in
  let outer := prints pre (TryCatch (AwaitCall inner kb) catches handler k) in
  let s := create' outer w in
  let started := allocate_frame (printed pre (allocate_frame w)) in
  let reported :=
    firebase.RecordException (S id) (fst (kind_and_message e))
      (snd (kind_and_message e))
      (my_backtrace.toString show_pointer (trace_of provider_at (S id))) w1 in
  exec' inner started = Threw e w1 \/
  (exec' inner started = Paused k1 w0 /\ k1 w0 = Threw e w1) ->
  catches e = true ->
  match bind_res (exec' (handler e) reported) (exec' k) with
  | Returned v _ =>
      is_ready (fst s) = true /\ result (fst s) = returns v /\
      exists d, reports (snd s) = (reports w ++ d)%list /\
                own id d = [] /\ own (S id) d = [report' (S id) e]
  | Threw e2 _ =>
      is_ready (fst s) = true /\ result (fst s) = throws e2 /\
      exists d, reports (snd s) = (reports w ++ d)%list /\
                own id d = [report' id e2] /\ own (S id) d = [report' (S id) e]
  | Paused _ _ =>
      is_ready (fst s) = false /\
      exists d, reports (snd s) = (reports w ++ d)%list /\
                own id d = [] /\ own (S id) d = [report' (S id) e]
  | Done _ _ | Undefined _ => False
  end.
Proof.
  intros id outer s started reported Hin Hcatch.
  remember (printed pre (allocate_frame w)) as wA eqn:HwA.
  assert (frames_created wA = S id /\ reports wA = reports w) as [HfA HrA].
  { rewrite HwA. destruct (printed_same pre (allocate_frame w)) as [-> ->]. now split. }
  (* the await throws [e] in the world where the inner task has reported *)
  assert (exec' (AwaitCall inner kb) wA = Threw e reported /\
          extends (S (S id)) (allocate_frame wA) w1) as [Haw [Hf1 [d1 [Hr1 Hd1]]]].
  { unfold reported. rewrite <- HfA.
    pose proof (awaited_body_log inner wA) as [Hlog1 Hlog2]. fold started in Hlog1, Hlog2.
    destruct Hin as [Hthrew|[Hpaused Hthen]].
    - split; [exact (await_throwing T show_pointer provider_at inner kb e wA w1 Hthrew)|].
      exact (Hlog1 e w1 Hthrew).
    - split; [exact (await_throwing_after_resume inner kb k1 e wA w0 w1 Hpaused Hthen)|].
      exact (proj1 (Hlog2 k1 w0 Hpaused) e w1 Hthen). }
  simpl in Hr1, Hf1. rewrite HrA in Hr1. rewrite HfA in Hf1.
  destruct (RecordException_report show_pointer provider_at (S id) e w1) as [Hr1' Hf1'].
  fold reported in Hr1', Hf1'.
  set (rest := bind_res (exec' (handler e) reported) (exec' k)).
  assert (exec' outer (allocate_frame w) = rest) as Hout.
  { unfold outer. rewrite (exec_prints T show_pointer provider_at), <- HwA.
    change (exec' (TryCatch (AwaitCall inner kb) catches handler k) wA)
      with (bind_res (catch_res (exec' (AwaitCall inner kb) wA) catches
                        (fun x => exec' (handler x)))
                     (exec' k)).
    rewrite Haw. simpl catch_res. now rewrite Hcatch. }
  assert (safe (S (S id)) reported rest) as Hsafe.
  { apply (safe_bind T provider_at).
    - intros w' Hw'. now apply (exec_safe T).
    - lia.
    - apply (exec_safe T). lia. }
  unfold s, create, coroutine_call. rewrite Hout.
  destruct rest as [a w2|v w2|e2 w2|k' w2|w2]; simpl in Hsafe.
  - destruct a.
  - destruct Hsafe as [_ [d2 [Hr2 Hd2]]]. simpl. unfold final_suspend. simpl.
    split; [reflexivity|]. split; [reflexivity|].
    exists (d1 ++ [report' (S id) e] ++ d2)%list.
    split; [now rewrite Hr2, Hr1', Hr1, <- !app_assoc|].
    rewrite !own_app. split.
    + rewrite (own_none id (S (S id)) d1), (own_none id (S (S id)) d2),
        own_report_other by (auto; lia). reflexivity.
    + rewrite (own_none (S id) (S (S id)) d1), (own_none (S id) (S (S id)) d2),
        own_report_of by (auto; lia). reflexivity.
  - destruct Hsafe as [_ [d2 [Hr2 Hd2]]].
    cbn [settle fst snd].
    rewrite (final_suspend_failure T show_pointer provider_at _ _ e2) by reflexivity.
    destruct (RecordException_report show_pointer provider_at id e2 w2) as [Hr3 _].
    fold id in Hr3. fold id.
    split; [reflexivity|]. split; [reflexivity|].
    exists (d1 ++ [report' (S id) e] ++ d2 ++ [report' id e2])%list.
    split; [now rewrite Hr3, Hr2, Hr1', Hr1, <- !app_assoc|].
    rewrite !own_app. split.
    + rewrite (own_none id (S (S id)) d1), (own_none id (S (S id)) d2),
        own_report_other, own_report_of by (auto; lia). reflexivity.
    + rewrite (own_none (S id) (S (S id)) d1), (own_none (S id) (S (S id)) d2),
        own_report_of, own_report_other by (auto; lia). reflexivity.
  - destruct Hsafe as [[_ [d2 [Hr2 Hd2]]] _]. simpl.
    split; [reflexivity|].
    exists (d1 ++ [report' (S id) e] ++ d2)%list.
    split; [now rewrite Hr2, Hr1', Hr1, <- !app_assoc|].
    rewrite !own_app. split.
    + rewrite (own_none id (S (S id)) d1), (own_none id (S (S id)) d2),
        own_report_other by (auto; lia). reflexivity.
    + rewrite (own_none (S id) (S (S id)) d1), (own_none (S id) (S (S id)) d2),
        own_report_of by (auto; lia). reflexivity.
  - exact Hsafe.
Qed.

End ThroughAnAwait.

(** C4, as stated, fails.  The awaited task below is still suspended after the
    await has resumed it; [result], called on it by [await_resume], throws the
    "not completed" error, which the awaiting body does not catch: the sink is
    called with that very error. *)
Lemma usage_failure_reaches_the_sink :
  let inner : Body Z := Suspend (Suspend (CoReturn 5%Z)) in
  let called := coroutine_call Sample.show_pointer Sample.providers
                  (exec Sample.show_pointer Sample.providers inner)
                  (allocate_frame Sample.world0) in
  let s := create Sample.show_pointer Sample.providers
             (AwaitCall inner (fun v => CoReturn v)) Sample.world0 in
  exists t' w',
    await_suspend Sample.show_pointer (fst called) (snd called) = Some (t', w') /\
    is_ready t' = false /\
    await_resume t' = throws not_completed /\
    reports Sample.world0 = [] /\
    reports (snd s) =
      [mkReport 0 "St13runtime_error" "TracedTask not completed"
         (my_backtrace.toString Sample.show_pointer
            (my_backtrace.current 128 (Sample.providers 0)))].
Proof.
  eexists. eexists. split; [reflexivity|]. repeat split.
Qed.

Lemma usage_failure_is_reported_by_the_awaiting_task_witness :
  let s := create Sample.show_pointer Sample.providers
             (AwaitCall (Suspend (Suspend (CoReturn 5%Z))) (fun v => CoReturn v))
             Sample.world0 in
  result (fst s) = throws not_completed /\
  exists d, reports (snd s) = d /\
            own 0 d = [report_of Sample.show_pointer Sample.providers 0 not_completed] /\
            own 1 d = [].
Proof.
  destruct (proj2 (usage_failure_is_reported_by_the_awaiting_task Z
                     Sample.show_pointer Sample.providers
                     (mkTask None) [] (Suspend (Suspend (CoReturn 5%Z)))
                     (fun v => CoReturn v) _ _ Sample.world0 _ _)
                  eq_refl eq_refl) as [_ [Hres [d [Hr [H0 H1]]]]].
  split; [exact Hres|]. exists d. split; [exact Hr|]. split; [exact H0|exact H1].
Defined.

(** C3, as stated, fails.  The body below awaits a task that fails, catches
    the failure, and then chooses a failure of its own as outcome: the sink
    is called for the outer level, with the new failure. *)
Lemma caught_failure_outer_level_is_reported :
  let caught := runtime_error "Exception from third level task" in
  let s := create Sample.show_pointer Sample.providers
             (TryCatch (AwaitCall thirdLevelTask (fun _ => Pure tt))
                       is_std_exception
                       (fun _ => Throw (runtime_error "gave up"))
                       (CoReturn 1%Z))
             Sample.world0 in
  is_std_exception caught = true /\
  is_ready (fst s) = true /\
  result (fst s) = throws (runtime_error "gave up") /\
  own 0 (reports (snd s)) =
    [report_of Sample.show_pointer Sample.providers 0 (runtime_error "gave up")] /\
  own 1 (reports (snd s)) =
    [report_of Sample.show_pointer Sample.providers 1 caught].
Proof. repeat split. Qed.

Lemma caught_failure_reports_follow_the_outcome_witness :
  (let s := create Sample.show_pointer Sample.providers handledExceptionTask
              Sample.world0 in
   is_ready (fst s) = true /\ result (fst s) = returns 1%Z /\
   exists d, reports (snd s) = d /\ own 0 d = [] /\
             own 1 d = [report_of Sample.show_pointer Sample.providers 1
                          (runtime_error "Exception from third level task")]) /\
  (let s := create Sample.show_pointer Sample.providers
              (TryCatch (AwaitCall (Suspend (Throw (other_exception 3)))
                           (fun _ => Pure tt))
                        (fun _ => true)
                        (fun _ => Throw (runtime_error "gave up"))
                        (CoReturn 1%Z))
              Sample.world0 in
   is_ready (fst s) = true /\ result (fst s) = throws (runtime_error "gave up") /\
   exists d, reports (snd s) = d /\
             own 0 d = [report_of Sample.show_pointer Sample.providers 0
                          (runtime_error "gave up")] /\
             own 1 d = [report_of Sample.show_pointer Sample.providers 1
                          (other_exception 3)]).
Proof.
  split.
  - exact (caught_failure_reports_follow_the_outcome Z Sample.show_pointer
             Sample.providers
             ["Task with handled exception - Calling second level"]
             secondLevelTask
             (fun result => Print ("Result: " ++ show_int result) (Pure tt))
             is_std_exception
             (fun e => Print ("Exception caught and handled: " ++ what_of e)
                         (Pure tt))
             (CoReturn 1%Z)
             (runtime_error "Exception from third level task")
             (fun w => Undefined w) Sample.world0 Sample.world0 _
             (or_introl eq_refl) eq_refl).
  - exact (caught_failure_reports_follow_the_outcome Z Sample.show_pointer
             Sample.providers [] (Suspend (Throw (other_exception 3)))
             (fun _ => Pure tt) (fun _ => true)
             (fun _ => Throw (runtime_error "gave up")) (CoReturn 1%Z)
             (other_exception 3) _ Sample.world0 _ _
             (or_intror (conj eq_refl eq_refl)) eq_refl).
Defined.
